(** * watchdog.observers.api: the platform-independent dispatch engine

    A shallow embedding of [src/watchdog/observers/api.py]: the watch
    descriptor [ObservedWatch], the producer [EventEmitter], the consumer
    [EventDispatcher] and the registry-owning [BaseObserver], followed by the
    properties of the engine.

    Python objects are modelled as follows.
    - A [dict] is a [gmap], a [set]/[frozenset] is a [gset].  Python
      iterates a set in the order of the slots of its hash table, which
      depends on the hashes of the members and on the history of the set: the
      code fixes no order, and it is not the order in which the members were
      added.  The model iterates a set in the order of [elements], one of the
      orders it can have; the snapshot of the handlers of a watch can also be
      listed in any other order ([dispatch_events_listing]).
    - An object compared by identity (a handler, an emitter thread) carries an
      identity number.
    - A method that mutates [self] and may raise is a function from the
      observer to an [Outcome]: the returned value and the new observer, or the
      exception and the observer as the exception left it. *)

From Stdlib Require Import ZArith List Permutation Ascii.
From stdpp Require Import base option countable gmap sets list strings.

Set Warnings "-clear-no-such-hyp".

(** ** pathlib: the string form of a path object

    [pathlib] belongs to the Python standard library.  The constructor of
    [ObservedWatch] uses one thing of it, [str(path)]; the model follows
    [PurePosixPath]. *)

Module Pathlib.

#[local] Open Scope string_scope.

(** A parsed pure POSIX path: its root ([""], ["/"] or ["//"]) and the
    components after the root. *)
Record PurePath := MkPath { root : string; tail : list string }.

(** [s.split("/")] *)
Fixpoint split_sep (s : string) (cur : string) : list string :=
  match s with
  | EmptyString => [cur]
  | String c s' =>
      if Ascii.eqb c "/"%char
      then cur :: split_sep s' ""
      else split_sep s' (cur ++ String c EmptyString)
  end.

(** [posixpath.splitroot]: one leading slash, or three and more, give the
    root ["/"]; exactly two give the root ["//"]. *)
Definition splitroot (s : string) : string * string :=
  match s with
  | String "/" (String "/" (String "/" r)) => ("/", String "/" (String "/" r))
  | String "/" (String "/" r) => ("//", r)
  | String "/" r => ("/", r)
  | _ => ("", s)
  end.

(** [Path(s)]: empty components and ["."] components are dropped. *)
Definition Path (s : string) : PurePath :=
  let '(rt, rel) := splitroot s in
  {| root := rt;
     tail := filter (fun x => x ≠ "" ∧ x ≠ ".") (split_sep rel "") |}.

Fixpoint join (sep : string) (l : list string) : string :=
  match l with
  | [] => ""
  | [x] => x
  | x :: l' => x ++ sep ++ join sep l'
  end.

(** [str(p)] *)
Definition str (p : PurePath) : string :=
  let s := root p ++ join "/" (tail p) in
  if decide (s = "") then "." else s.

#[global] Instance PurePath_eq_dec : EqDecision PurePath.
Proof. solve_decision. Defined.

End Pathlib.

(** ** Events

    The event classes of [watchdog.events] are not among the sources of the
    engine.  What the engine uses of an event is its class, through
    [isinstance], and its value, through [==] in the queue. *)

(** Modelled from the spec: an event-kind tag, the name of an event class of
    watchdog.events. *)
Definition EventClass := string.

(** Modelled from the spec: an event of watchdog.events, a value with a kind.
    The kind is the class of the event; the event carries the classes it is
    an instance of, its own class first and then the classes that one
    inherits from, and its payload. *)
Record FileSystemEvent := MkEvent {
  ev_mro : list EventClass;
  ev_src_path : string
}.

#[global] Instance FileSystemEvent_eq_dec : EqDecision FileSystemEvent.
Proof. solve_decision. Defined.

(** [type(event)] *)
Definition ev_class (e : FileSystemEvent) : option EventClass := head (ev_mro e).

(** [isinstance(event, cls)] *)
Definition isinstance (e : FileSystemEvent) (cls : EventClass) : bool :=
  bool_decide (cls ∈ ev_mro e).

(** ** ObservedWatch *)

(** The [path] argument of the constructor: a string or a [Path] object. *)
Inductive PathArg :=
| PStr (s : string)
| PPath (p : Pathlib.PurePath).

Record ObservedWatch := MkWatch {
  path : string;
  is_recursive : bool;
  event_filter : option (gset EventClass)
}.

(** [frozenset(event_filter) if event_filter is not None else None] *)
Definition frozen (event_filter : option (list EventClass)) : option (gset EventClass) :=
  match event_filter with
  | Some l => Some (list_to_set l)
  | None => None
  end.

(** [ObservedWatch.__init__] *)
Definition ObservedWatch_init (p : PathArg) (recursive : bool)
    (event_filter : option (list EventClass)) : ObservedWatch :=
  {| path := match p with PPath q => Pathlib.str q | PStr s => s end;
     is_recursive := recursive;
     event_filter := frozen event_filter |}.

(** [ObservedWatch.key] *)
Definition key (w : ObservedWatch) : string * bool * option (gset EventClass) :=
  (path w, is_recursive w, event_filter w).

#[global] Instance ObservedWatch_eq_dec : EqDecision ObservedWatch.
Proof. solve_decision. Defined.

(** [ObservedWatch.__eq__] and [__ne__] *)
Definition watch_eq (w1 w2 : ObservedWatch) : bool := bool_decide (key w1 = key w2).
Definition watch_ne (w1 w2 : ObservedWatch) : bool := bool_decide (key w1 ≠ key w2).

(** [ObservedWatch.__hash__], over the builtin [hash] of the key tuple. *)
Definition watch_hash (hash : string * bool * option (gset EventClass) → Z)
    (w : ObservedWatch) : Z := hash (key w).

Definition of_key (k : string * bool * option (gset EventClass)) : ObservedWatch :=
  {| path := k.1.1; is_recursive := k.1.2; event_filter := k.2 |}.

#[global] Instance ObservedWatch_countable : Countable ObservedWatch.
Proof. refine (inj_countable' key of_key _). by intros []. Defined.

(** ** The deduplicating event queue

    [EventQueue] inherits everything from
    [watchdog.utils.bricks.SkipRepeatsQueue], which is not among the engine's
    sources: its operations follow the contract of the specification. *)

(** A queue entry: [EventDispatcher.stop_event], the sentinel object, or a
    pair [(event, watch)]. *)
Inductive Entry :=
| stop_event
| event_entry (event : FileSystemEvent) (watch : ObservedWatch).

#[global] Instance Entry_eq_dec : EqDecision Entry.
Proof. solve_decision. Defined.

Module EventQueue.

(** Modelled from the spec: the state of SkipRepeatsQueue, an ordered
    sequence of entries with the last entry successfully enqueued, the
    capacity bound ([0] for none) and the count of entries not yet marked
    done. *)
Record t := MkQueue {
  items : list Entry;
  last_item : option Entry;
  maxsize : nat;
  unfinished_tasks : nat
}.

(** Modelled from the spec: SkipRepeatsQueue(), the empty queue without a
    capacity bound. *)
Definition new : t :=
  {| items := []; last_item := None; maxsize := 0; unfinished_tasks := 0 |}.

(** Modelled from the spec: SkipRepeatsQueue.put appends the entry unless
    it is equal to the single most-recently-enqueued entry, in which case
    it is silently dropped. *)
Definition put (x : Entry) (q : t) : t :=
  if decide (last_item q = Some x) then q
  else {| items := items q ++ [x];
          last_item := Some x;
          maxsize := maxsize q;
          unfinished_tasks := S (unfinished_tasks q) |}.

(** Modelled from the spec: a queue with a capacity bound is full when it
    holds that many entries. *)
Definition full (q : t) : bool :=
  bool_decide (0 < maxsize q ∧ maxsize q ≤ length (items q)).

(** Modelled from the spec: SkipRepeatsQueue.put_nowait is the
    non-blocking put; [None] is the full-queue condition of a queue with a
    capacity bound. *)
Definition put_nowait (x : Entry) (q : t) : option t :=
  if full q then None else Some (put x q).

Inductive get_result :=
| Got (x : Entry) (q : t)
| Empty
| Waits.

(** Modelled from the spec: SkipRepeatsQueue.get hands out the entries in
    FIFO order; on an empty queue a non-blocking get, or a blocking get
    whose timeout elapses, signals the empty-result condition.  A blocking
    get without timeout has no timeout to elapse: it waits until an entry
    arrives, as [queue.Queue.get] does. *)
Definition get (block : bool) (timeout : option N) (q : t) : get_result :=
  match items q with
  | x :: rest =>
      Got x {| items := rest; last_item := last_item q;
               maxsize := maxsize q; unfinished_tasks := unfinished_tasks q |}
  | [] =>
      match block, timeout with
      | true, None => Waits
      | _, _ => Empty
      end
  end.

(** Modelled from the spec: SkipRepeatsQueue.task_done marks one entry
    done; [None] is the error of marking more entries than were enqueued. *)
Definition task_done (q : t) : option t :=
  match unfinished_tasks q with
  | 0 => None
  | S n => Some {| items := items q; last_item := last_item q;
                   maxsize := maxsize q; unfinished_tasks := n |}
  end.

End EventQueue.

(** ** EventEmitter *)

Definition DEFAULT_EMITTER_TIMEOUT : N := 1.
Definition DEFAULT_OBSERVER_TIMEOUT : N := 1.

(** An emitter thread: its identity and the attributes set by
    [EventEmitter.__init__].  The queue it populates is the queue of the
    observer that owns it, handed to [queue_event]. *)
Record EventEmitter := MkEmitter {
  em_id : nat;
  em_watch : ObservedWatch;
  em_timeout : N;
  em_event_filter : option (gset EventClass)
}.

#[global] Instance EventEmitter_eq_dec : EqDecision EventEmitter.
Proof. solve_decision. Defined.

#[global] Instance EventEmitter_countable : Countable EventEmitter.
Proof.
  refine (inj_countable'
    (λ e, (em_id e, em_watch e, em_timeout e, em_event_filter e))
    (λ t, MkEmitter t.1.1.1 t.1.1.2 t.1.2 t.2) _).
  by intros [].
Defined.

(** [EventEmitter.__init__] *)
Definition EventEmitter_init (id : nat) (watch : ObservedWatch) (timeout : N)
    (event_filter : option (list EventClass)) : EventEmitter :=
  {| em_id := id; em_watch := watch; em_timeout := timeout;
     em_event_filter := frozen event_filter |}.

(** [any(isinstance(event, cls) for cls in self._event_filter)] *)
Definition any_isinstance (event : FileSystemEvent) (classes : gset EventClass) : bool :=
  existsb (isinstance event) (elements classes).

(** [EventEmitter.queue_event] *)
Definition queue_event (em : EventEmitter) (event : FileSystemEvent)
    (q : EventQueue.t) : EventQueue.t :=
  match em_event_filter em with
  | None => EventQueue.put (event_entry event (em_watch em)) q
  | Some classes =>
      if any_isinstance event classes
      then EventQueue.put (event_entry event (em_watch em)) q
      else q
  end.

(** ** BaseObserver: state *)

(** An event handler is an object compared by identity. *)
Definition Handler := nat.

(** The emitter class handed to [BaseObserver.__init__].  What the engine
    sees of it is whether [start()] of an emitter built for a watch returns or
    raises. *)
Record EmitterClass := MkEmitterClass {
  starts : ObservedWatch → bool
}.

(** Calls made on the emitter threads. *)
Inductive ThreadCall :=
| ThreadStart (id : nat)
| ThreadStop (id : nat)
| ThreadJoin (id : nat).

Record BaseObserver := MkObserver {
  event_queue : EventQueue.t;              (* self._event_queue *)
  timeout : N;                             (* self._timeout *)
  emitter_class : EmitterClass;            (* self._emitter_class *)
  watches : gset ObservedWatch;            (* self._watches *)
  handlers : gmap ObservedWatch (gset Handler);       (* self._handlers *)
  emitters : gset EventEmitter;            (* self._emitters *)
  emitter_for_watch : gmap ObservedWatch EventEmitter; (* self._emitter_for_watch *)
  alive : bool;                            (* the consumer thread was started *)
  stopped : bool;                          (* the stop request of BaseThread *)
  next_id : nat;                           (* identity of the next emitter built *)
  thread_calls : list ThreadCall           (* calls on emitter threads, oldest first *)
}.

(** [BaseObserver.__init__] *)
Definition BaseObserver_init (cls : EmitterClass) (timeout : N) : BaseObserver :=
  {| event_queue := EventQueue.new;
     timeout := timeout;
     emitter_class := cls;
     watches := ∅;
     handlers := ∅;
     emitters := ∅;
     emitter_for_watch := ∅;
     alive := false;
     stopped := false;
     next_id := 0;
     thread_calls := [] |}.

Definition set_event_queue (q : EventQueue.t) (o : BaseObserver) : BaseObserver :=
  MkObserver q (timeout o) (emitter_class o) (watches o) (handlers o) (emitters o)
    (emitter_for_watch o) (alive o) (stopped o) (next_id o) (thread_calls o).
Definition set_watches (ws : gset ObservedWatch) (o : BaseObserver) : BaseObserver :=
  MkObserver (event_queue o) (timeout o) (emitter_class o) ws (handlers o) (emitters o)
    (emitter_for_watch o) (alive o) (stopped o) (next_id o) (thread_calls o).
Definition set_handlers (hs : gmap ObservedWatch (gset Handler)) (o : BaseObserver)
    : BaseObserver :=
  MkObserver (event_queue o) (timeout o) (emitter_class o) (watches o) hs (emitters o)
    (emitter_for_watch o) (alive o) (stopped o) (next_id o) (thread_calls o).
Definition set_emitters (es : gset EventEmitter) (o : BaseObserver) : BaseObserver :=
  MkObserver (event_queue o) (timeout o) (emitter_class o) (watches o) (handlers o) es
    (emitter_for_watch o) (alive o) (stopped o) (next_id o) (thread_calls o).
Definition set_emitter_for_watch (m : gmap ObservedWatch EventEmitter) (o : BaseObserver)
    : BaseObserver :=
  MkObserver (event_queue o) (timeout o) (emitter_class o) (watches o) (handlers o)
    (emitters o) m (alive o) (stopped o) (next_id o) (thread_calls o).
Definition set_alive (b : bool) (o : BaseObserver) : BaseObserver :=
  MkObserver (event_queue o) (timeout o) (emitter_class o) (watches o) (handlers o)
    (emitters o) (emitter_for_watch o) b (stopped o) (next_id o) (thread_calls o).
Definition set_stopped (b : bool) (o : BaseObserver) : BaseObserver :=
  MkObserver (event_queue o) (timeout o) (emitter_class o) (watches o) (handlers o)
    (emitters o) (emitter_for_watch o) (alive o) b (next_id o) (thread_calls o).
Definition set_next_id (n : nat) (o : BaseObserver) : BaseObserver :=
  MkObserver (event_queue o) (timeout o) (emitter_class o) (watches o) (handlers o)
    (emitters o) (emitter_for_watch o) (alive o) (stopped o) n (thread_calls o).
Definition log_call (c : ThreadCall) (o : BaseObserver) : BaseObserver :=
  MkObserver (event_queue o) (timeout o) (emitter_class o) (watches o) (handlers o)
    (emitters o) (emitter_for_watch o) (alive o) (stopped o) (next_id o)
    (thread_calls o ++ [c]).

(** ** Methods that may raise *)

Inductive Exn :=
| KeyError          (* a missing dict key or set member *)
| QueueEmpty        (* queue.Empty *)
| QueueFull         (* queue.Full *)
| ValueError        (* task_done() called too many times *)
| StartError        (* the exception raised by a failing emitter start *)
| HandlerError.     (* an exception raised by a handler *)

(** How a call on the observer ends: it returns, it raises, or it waits on
    the empty queue for an entry. *)
Inductive Outcome (A : Type) :=
| Ok (a : A) (o : BaseObserver)
| Raise (e : Exn) (o : BaseObserver)
| Blocked (o : BaseObserver).
Arguments Ok {A} a o.
Arguments Raise {A} e o.
Arguments Blocked {A} o.

Definition M (A : Type) : Type := BaseObserver → Outcome A.

Definition ret {A} (a : A) : M A := λ o, Ok a o.
Definition raise {A} (e : Exn) : M A := λ o, Raise e o.
Definition bind {A B} (m : M A) (k : A → M B) : M B :=
  λ o, match m o with
       | Ok a o' => k a o'
       | Raise e o' => Raise e o'
       | Blocked o' => Blocked o'
       end.
Definition gets {A} (f : BaseObserver → A) : M A := λ o, Ok (f o) o.
Definition modify (f : BaseObserver → BaseObserver) : M unit := λ o, Ok tt (f o).

Declare Scope obs_scope.
Delimit Scope obs_scope with obs.
Notation "'let*' x ':=' m 'in' k" := (bind m (λ x, k))
  (at level 10, x name, m at level 100, k at level 200) : obs_scope.
Notation "m '>>' k" := (bind m (λ _, k))
  (at level 100, k at level 200, right associativity) : obs_scope.

(** The observer the call left behind, however it ended. *)
Definition state_of {A} (r : Outcome A) : BaseObserver :=
  match r with Ok _ o | Raise _ o | Blocked o => o end.

(** Whether the call returned, and the value it returned. *)
Definition returned {A} (r : Outcome A) : bool :=
  match r with Ok _ _ => true | _ => false end.
Definition value_of {A} (d : A) (r : Outcome A) : A :=
  match r with Ok a _ => a | _ => d end.

(** ** BaseThread

    [watchdog.utils.BaseThread] is not among the engine's sources. *)

(** Modelled from the spec: BaseThread.start begins the loop of the thread. *)
Definition BaseThread_start : M unit := modify (set_alive true).

(** Modelled from the spec: BaseThread.stop requests cancellation. *)
Definition BaseThread_stop : M unit := modify (set_stopped true).

(** Modelled from the spec: BaseThread.should_keep_running is the poll of the
    cancellation request made inside the loop. *)
Definition should_keep_running (o : BaseObserver) : bool := negb (stopped o).

(** Modelled from the spec: BaseThread.is_alive. *)
Definition is_alive (o : BaseObserver) : bool := alive o.

(** [emitter.start()]: returns or raises as the emitter class decides. *)
Definition emitter_start (em : EventEmitter) : M unit :=
  (let* cls := gets emitter_class in
   if starts cls (em_watch em)
   then modify (log_call (ThreadStart (em_id em)))
   else raise StartError)%obs.

(** [emitter.stop()] *)
Definition emitter_stop (em : EventEmitter) : M unit :=
  modify (log_call (ThreadStop (em_id em))).

(** [with contextlib.suppress(RuntimeError): emitter.join()] *)
Definition emitter_join (em : EventEmitter) : M unit :=
  modify (log_call (ThreadJoin (em_id em))).

(** ** BaseObserver: registry methods *)

#[local] Open Scope obs_scope.

(** [BaseObserver._add_emitter] *)
Definition _add_emitter (emitter : EventEmitter) : M unit :=
  modify (λ o, set_emitter_for_watch
                 (<[em_watch emitter := emitter]> (emitter_for_watch o)) o) >>
  modify (λ o, set_emitters ({[emitter]} ∪ emitters o) o).

(** [del d[k]] *)
Definition dict_del {V} (get : BaseObserver → gmap ObservedWatch V)
    (set : gmap ObservedWatch V → BaseObserver → BaseObserver)
    (k : ObservedWatch) : M unit :=
  let* d := gets get in
  match d !! k with
  | Some _ => modify (set (delete k d))
  | None => raise KeyError
  end.

(** [BaseObserver._remove_emitter] *)
Definition _remove_emitter (emitter : EventEmitter) : M unit :=
  dict_del emitter_for_watch set_emitter_for_watch (em_watch emitter) >>
  (let* es := gets emitters in
   if decide (emitter ∈ es)
   then modify (set_emitters (es ∖ {[emitter]}))
   else raise KeyError) >>
  emitter_stop emitter >>
  emitter_join emitter.

(** [for x in xs: body(x)] *)
Fixpoint for_each {A} (xs : list A) (body : A → M unit) : M unit :=
  match xs with
  | [] => ret tt
  | x :: xs' => body x >> for_each xs' body
  end.

(** [BaseObserver._clear_emitters] *)
Definition _clear_emitters : M unit :=
  (let* es := gets emitters in for_each (elements es) emitter_stop) >>
  (let* es := gets emitters in for_each (elements es) emitter_join) >>
  modify (set_emitters ∅) >>
  modify (set_emitter_for_watch ∅).

(** [BaseObserver._add_handler_for_watch] *)
Definition _add_handler_for_watch (event_handler : Handler) (watch : ObservedWatch)
    : M unit :=
  (let* hs := gets handlers in
   match hs !! watch with
   | None => modify (set_handlers (<[watch := ∅]> hs))
   | Some _ => ret tt
   end) >>
  modify (λ o, set_handlers
                 (alter (λ s, {[event_handler]} ∪ s) watch (handlers o)) o).

(** [BaseObserver._remove_handlers_for_watch] *)
Definition _remove_handlers_for_watch (watch : ObservedWatch) : M unit :=
  dict_del handlers set_handlers watch.

(** The body of the loop of [BaseObserver.start]:
    [try: emitter.start() except Exception: self._remove_emitter(emitter); raise] *)
Definition start_or_remove (emitter : EventEmitter) : M unit :=
  λ o, match emitter_start emitter o with
       | Raise e o' => (_remove_emitter emitter >> raise e) o'
       | r => r
       end.

(** [BaseObserver.start] *)
Definition start : M unit :=
  (let* es := gets emitters in for_each (elements es) start_or_remove) >>
  BaseThread_start.

(** [BaseObserver.schedule], for an [event_filter] that is [None] or a
    collection (list, tuple, set, frozenset): the constructor of the watch
    and the constructor of the emitter read the same members from it.
    [schedule_iterable] below takes any iterable. *)
Definition schedule (event_handler : Handler) (path : PathArg) (recursive : bool)
    (event_filter : option (list EventClass)) : M ObservedWatch :=
  let watch := ObservedWatch_init path recursive event_filter in
  _add_handler_for_watch event_handler watch >>
  (let* efw := gets emitter_for_watch in
   match efw !! watch with
   | None =>
       let* id := gets next_id in
       let* tm := gets timeout in
       let emitter := EventEmitter_init id watch tm event_filter in
       modify (set_next_id (S id)) >>
       (let* running := gets is_alive in
        if running then emitter_start emitter else ret tt) >>
       _add_emitter emitter
   | Some _ => ret tt
   end) >>
  modify (λ o, set_watches ({[watch]} ∪ watches o) o) >>
  ret watch.

(** An [event_filter] argument that is not [None] is any iterable of event
    classes.  A collection gives its members every time it is read; an
    iterator or a generator gives what remains of it once and is empty
    afterwards. *)
Inductive Iterable :=
| Collection (members : list EventClass)
| Iterator (remaining : list EventClass).

(** [frozenset(event_filter)]: the members read, and the iterable as the
    reading leaves it. *)
Definition read_all (it : Iterable) : list EventClass * Iterable :=
  match it with
  | Collection l => (l, Collection l)
  | Iterator l => (l, Iterator [])
  end.

(** What the first [frozenset(event_filter)] reads from the argument, and
    what a second one reads from the same object after it. *)
Definition first_read (event_filter : option Iterable) : option (list EventClass) :=
  (λ it, (read_all it).1) <$> event_filter.
Definition second_read (event_filter : option Iterable) : option (list EventClass) :=
  (λ it, (read_all (read_all it).2).1) <$> event_filter.

(** [BaseObserver.schedule] with any iterable as [event_filter].  The one
    object is handed to [ObservedWatch(path, recursive, event_filter)], whose
    constructor reads it, and then to the emitter class, whose constructor
    reads it again. *)
Definition schedule_iterable (event_handler : Handler) (path : PathArg)
    (recursive : bool) (event_filter : option Iterable) : M ObservedWatch :=
  let watch := ObservedWatch_init path recursive (first_read event_filter) in
  _add_handler_for_watch event_handler watch >>
  (let* efw := gets emitter_for_watch in
   match efw !! watch with
   | None =>
       let* id := gets next_id in
       let* tm := gets timeout in
       let emitter := EventEmitter_init id watch tm (second_read event_filter) in
       modify (set_next_id (S id)) >>
       (let* running := gets is_alive in
        if running then emitter_start emitter else ret tt) >>
       _add_emitter emitter
   | Some _ => ret tt
   end) >>
  modify (λ o, set_watches ({[watch]} ∪ watches o) o) >>
  ret watch.

(** [BaseObserver.add_handler_for_watch] *)
Definition add_handler_for_watch (event_handler : Handler) (watch : ObservedWatch)
    : M unit :=
  _add_handler_for_watch event_handler watch.

(** [BaseObserver.remove_handler_for_watch] *)
Definition remove_handler_for_watch (event_handler : Handler) (watch : ObservedWatch)
    : M unit :=
  let* hs := gets handlers in
  match hs !! watch with
  | None => raise KeyError
  | Some s =>
      if decide (event_handler ∈ s)
      then modify (set_handlers (<[watch := s ∖ {[event_handler]}]> hs))
      else raise KeyError
  end.

(** [BaseObserver.unschedule] *)
Definition unschedule (watch : ObservedWatch) : M unit :=
  let* efw := gets emitter_for_watch in
  match efw !! watch with
  | None => raise KeyError
  | Some emitter =>
      dict_del handlers set_handlers watch >>
      _remove_emitter emitter >>
      (let* ws := gets watches in
       if decide (watch ∈ ws)
       then modify (set_watches (ws ∖ {[watch]}))
       else raise KeyError)
  end.

(** [BaseObserver.unschedule_all] *)
Definition unschedule_all : M unit :=
  modify (set_handlers ∅) >>
  _clear_emitters >>
  modify (set_watches ∅).

(** [BaseObserver.on_thread_stop] *)
Definition on_thread_stop : M unit := unschedule_all.

(** [EventDispatcher.stop]:
    [with contextlib.suppress(queue.Full): put_nowait(stop_event)] *)
Definition stop : M unit :=
  BaseThread_stop >>
  (let* q := gets event_queue in
   match EventQueue.put_nowait stop_event q with
   | Some q' => modify (set_event_queue q')
   | None => ret tt
   end).

(** ** The consumer loop *)

(** [self._handlers.get(watch, [])] *)
Definition handlers_get (watch : ObservedWatch) (o : BaseObserver) : gset Handler :=
  default ∅ (handlers o !! watch).

(** [event_queue.task_done()] *)
Definition task_done : M unit :=
  let* q := gets event_queue in
  match EventQueue.task_done q with
  | Some q' => modify (set_event_queue q')
  | None => raise ValueError
  end.

Section Consumer.

(** [handler.dispatch(event)]: what a handler does when it is invoked.  It
    runs on the consumer thread under the reentrant lock, so it may call
    back into the observer, and it may raise. *)
Variable dispatch : Handler → FileSystemEvent → M unit.

(** The loop of [BaseObserver.dispatch_events] over the snapshot
    [list(self._handlers.get(watch, []))].  It returns the handlers it
    invoked, in the order of the calls. *)
Fixpoint dispatch_loop (event : FileSystemEvent) (watch : ObservedWatch)
    (snapshot : list Handler) : M (list Handler) :=
  match snapshot with
  | [] => ret []
  | handler :: rest =>
      let* registered := gets (handlers_get watch) in
      if decide (handler ∈ registered)
      then dispatch handler event >>
           (let* calls := dispatch_loop event watch rest in
            ret (handler :: calls))
      else dispatch_loop event watch rest
  end.

(** [BaseObserver.dispatch_events], called on the observer's own queue.
    The handlers of a watch are kept in a set, and the code fixes no order in
    which [list(...)] lists them: [listing] is that order. *)
Definition dispatch_events_listing (listing : gset Handler → list Handler)
    : M (list Handler) :=
  λ o, match EventQueue.get true None (event_queue o) with
       | EventQueue.Waits => Blocked o
       | EventQueue.Empty => Raise QueueEmpty o
       | EventQueue.Got stop_event q => Ok [] (set_event_queue q o)
       | EventQueue.Got (event_entry event watch) q =>
           (let* snapshot := gets (λ o', listing (handlers_get watch o')) in
            let* calls := dispatch_loop event watch snapshot in
            task_done >> ret calls) (set_event_queue q o)
       end.

(** [BaseObserver.dispatch_events] with the handlers listed in the order of
    [elements], one of the orders the set can have. *)
Definition dispatch_events : M (list Handler) :=
  dispatch_events_listing elements.

(** [EventDispatcher.run]: [None] when the fuel does not reach the end of
    the loop. *)
Fixpoint run (fuel : nat) (o : BaseObserver) : option (Outcome unit) :=
  match fuel with
  | 0 => None
  | S fuel' =>
      if should_keep_running o then
        match dispatch_events o with
        | Ok _ o' => run fuel' o'
        | Raise QueueEmpty o' => run fuel' o'
        | Raise e o' => Some (Raise e o')
        | Blocked o' => Some (Blocked o')
        end
      else Some (Ok tt o)
  end.

End Consumer.

#[local] Close Scope obs_scope.

(** ** Sequences of calls *)

(** The arguments of one [schedule] call. *)
Record ScheduleCall := MkCall {
  call_handler : Handler;
  call_path : PathArg;
  call_recursive : bool;
  call_filter : option (list EventClass)
}.

Definition call_watch (c : ScheduleCall) : ObservedWatch :=
  ObservedWatch_init (call_path c) (call_recursive c) (call_filter c).

Definition do_schedule (c : ScheduleCall) : M ObservedWatch :=
  schedule (call_handler c) (call_path c) (call_recursive c) (call_filter c).

(** The calls made one after the other; the descriptors they returned, in
    the order of the calls. *)
Fixpoint schedule_all (cs : list ScheduleCall) : M (list ObservedWatch) :=
  match cs with
  | [] => ret []
  | c :: cs' =>
      bind (do_schedule c) (λ w,
      bind (schedule_all cs') (λ ws, ret (w :: ws)))
  end.

(** The entries put one after the other. *)
Definition put_all (xs : list Entry) (q : EventQueue.t) : EventQueue.t :=
  foldl (λ q x, EventQueue.put x q) q xs.

(** The entries a consumer gets from the queue until it is empty. *)
Fixpoint drain (fuel : nat) (q : EventQueue.t) : list Entry :=
  match fuel with
  | 0 => []
  | S fuel' =>
      match EventQueue.get false None q with
      | EventQueue.Got x q' => x :: drain fuel' q'
      | _ => []
      end
  end.

(** The public operations of the engine. *)
Inductive Op :=
| OpSchedule (c : ScheduleCall)
| OpUnschedule (watch : ObservedWatch)
| OpUnscheduleAll
| OpStart.

Definition run_op (op : Op) : M unit :=
  match op with
  | OpSchedule c => bind (do_schedule c) (λ _, ret tt)
  | OpUnschedule w => unschedule w
  | OpUnscheduleAll => unschedule_all
  | OpStart => start
  end.

(** The operations made one after the other by a caller that catches what
    an operation raises and goes on. *)
Definition run_ops (ops : list Op) (o : BaseObserver) : BaseObserver :=
  foldl (λ o' op, state_of (run_op op o')) o ops.

(** Every [start] among the operations returned: no emitter failed to
    start. *)
Fixpoint every_start_returns (ops : list Op) (o : BaseObserver) : bool :=
  match ops with
  | [] => true
  | op :: ops' =>
      match op with
      | OpStart => returned (run_op op o)
      | _ => true
      end && every_start_returns ops' (state_of (run_op op o))
  end.

(** The registry invariant: the Active Watch Set holds the keys of the
    Producer Registry. *)
Definition watches_are_registry (o : BaseObserver) : Prop :=
  watches o = dom (emitter_for_watch o).

(** The emitters are the values of the Producer Registry, each filed under
    its own watch. *)
Definition emitters_are_registry (o : BaseObserver) : Prop :=
  (∀ w em, emitter_for_watch o !! w = Some em → em_watch em = w ∧ em ∈ emitters o) ∧
  (∀ em, em ∈ emitters o → emitter_for_watch o !! em_watch em = Some em).

(** ** Specification-side definitions *)

(** The Handler Registry after [handler] was attached to [watch]. *)
Definition add_handler (handler : Handler) (watch : ObservedWatch)
    (hs : gmap ObservedWatch (gset Handler)) : gmap ObservedWatch (gset Handler) :=
  <[watch := {[handler]} ∪ default ∅ (hs !! watch)]> hs.

(** The registries of [o'] are those of [o]. *)
Definition same_registries (o o' : BaseObserver) : Prop :=
  emitter_for_watch o' = emitter_for_watch o ∧ emitters o' = emitters o ∧
  watches o' = watches o ∧ handlers o' = handlers o ∧
  emitter_class o' = emitter_class o.

(** A sequence of entries with every run of consecutive equal entries
    collapsed to its first one, [prev] being the entry that came before. *)
Fixpoint skip_repeats (prev : option Entry) (xs : list Entry) : list Entry :=
  match xs with
  | [] => []
  | x :: xs' =>
      if decide (prev = Some x) then skip_repeats prev xs'
      else x :: skip_repeats (Some x) xs'
  end.

(** The filter test in the words of the specification: the filter is unset,
    or the kind of the event, its class, is a member of the filter. *)
Definition kind_is_member (event : FileSystemEvent)
    (event_filter : option (gset EventClass)) : bool :=
  match event_filter with
  | None => true
  | Some classes =>
      match ev_class event with
      | Some cls => bool_decide (cls ∈ classes)
      | None => false
      end
  end.

(** A handler that returns and leaves the registries and the queue alone. *)
Definition quiet (dispatch : Handler → FileSystemEvent → M unit) : Prop :=
  ∀ h ev o, ∃ o', dispatch h ev o = Ok tt o' ∧
    handlers o' = handlers o ∧ event_queue o' = event_queue o.


(** Two filter arguments with the same members: both [None], or two
    iterables that hold the same classes, in any order and any number of
    times. *)
Definition same_members (f f' : option (list EventClass)) : Prop :=
  match f, f' with
  | None, None => True
  | Some l, Some l' => ∀ cls, cls ∈ l ↔ cls ∈ l'
  | _, _ => False
  end.

(** ** Concrete engines, watches and events *)

(** An emitter class whose emitters start, and one whose emitters fail to. *)
Definition starting : EmitterClass := MkEmitterClass (λ _, true).
Definition failing : EmitterClass := MkEmitterClass (λ _, false).

Definition watch_a : ObservedWatch := ObservedWatch_init (PStr "/tmp/a") false None.
Definition watch_b : ObservedWatch := ObservedWatch_init (PStr "/tmp/b") false None.

(** An emitter class whose emitters start, except the emitter of
    [watch_a]. *)
Definition failing_on_a : EmitterClass :=
  MkEmitterClass (λ w, bool_decide (w ≠ watch_a)).

(** A modification event; its class inherits from the base class of the
    events. *)
Definition modified_x : FileSystemEvent :=
  MkEvent ["FileModifiedEvent"; "FileSystemEvent"]%string "/tmp/a/x".

Definition created_y : FileSystemEvent :=
  MkEvent ["FileCreatedEvent"; "FileSystemEvent"]%string "/tmp/a/y".

(** The handler that is invoked for nothing. *)
Definition no_dispatch : Handler → FileSystemEvent → M unit := λ _ _, ret tt.

(** Five calls for two distinct descriptors. *)
Definition C4_calls : list ScheduleCall :=
  [ MkCall 1 (PStr "/tmp/a") false None;
    MkCall 2 (PStr "/tmp/a") false None;
    MkCall 1 (PStr "/tmp/b") true (Some ["FileMovedEvent"; "DirMovedEvent"]);
    MkCall 3 (PStr "/tmp/b") true (Some ["DirMovedEvent"; "FileMovedEvent"]);
    MkCall 3 (PStr "/tmp/a") false None ]%string.

(** An idle engine with handler 1 scheduled on [watch_a]. *)
Definition C7_observer : BaseObserver :=
  state_of (schedule 1 (PStr "/tmp/a") false None (BaseObserver_init starting 1)).

(** A running engine whose emitters fail to start. *)
Definition C3_observer : BaseObserver :=
  set_alive true (BaseObserver_init failing 1).

(** An idle engine whose emitters fail to start, with one watch scheduled. *)
Definition C5_observer : BaseObserver :=
  state_of (schedule 1 (PStr "/tmp/a") false None (BaseObserver_init failing 1)).

(** Handler 2, when invoked, removes handler 1 from [watch_a]; handler 1
    does nothing. *)
Definition C1_dispatch : Handler → FileSystemEvent → M unit :=
  λ h _, if decide (h = 2) then remove_handler_for_watch 1 watch_a else ret tt.

(** Handler 2, when invoked, adds handler 3 to [watch_a]. *)
Definition C1_dispatch_add : Handler → FileSystemEvent → M unit :=
  λ h _, if decide (h = 2) then add_handler_for_watch 3 watch_a else ret tt.

(** Handlers 1 and 2 scheduled on [watch_a], and one event for it on the
    queue. *)
Definition C1_observer : BaseObserver :=
  set_event_queue (EventQueue.put (event_entry modified_x watch_a) EventQueue.new)
    (state_of (schedule_all
                 [MkCall 1 (PStr "/tmp/a") false None; MkCall 2 (PStr "/tmp/a") false None]
                 (BaseObserver_init starting 1))).

(** The queue of [C1_observer] after the read. *)
Definition C1_rest : EventQueue.t :=
  EventQueue.MkQueue [] (Some (event_entry modified_x watch_a)) 0 1.

(** The engine after [schedule] of [watch_a] with handler 1, then with
    handler 2, and one event for the watch on its queue. *)
Definition C8_observer : BaseObserver :=
  set_event_queue
    (EventQueue.put (event_entry modified_x (ObservedWatch_init (PStr "/tmp/a") false None))
       EventQueue.new)
    (state_of (schedule 2 (PStr "/tmp/a") false None
       (state_of (schedule 1 (PStr "/tmp/a") false None
          (BaseObserver_init starting 1))))).

Definition C6_A : Entry := event_entry modified_x watch_a.
Definition C6_B : Entry := event_entry created_y watch_a.

(** An emitter that filters on the base class of the events, and one that
    filters on a class the event does not inherit from. *)
Definition C9_emitter : EventEmitter :=
  EventEmitter_init 0 watch_a DEFAULT_EMITTER_TIMEOUT (Some ["FileSystemEvent"%string]).
Definition C9_emitter' : EventEmitter :=
  EventEmitter_init 1 watch_a DEFAULT_EMITTER_TIMEOUT (Some ["DirCreatedEvent"%string]).

(** [Path("/tmp/a/")], whose string form is ["/tmp/a"]. *)
Definition C10_path : Pathlib.PurePath := Pathlib.Path "/tmp/a/".

Definition C10_filter : option (list EventClass) :=
  Some ["FileMovedEvent"; "DirMovedEvent"]%string.

Definition C10_filter' : option (list EventClass) :=
  Some ["DirMovedEvent"; "FileMovedEvent"; "DirMovedEvent"]%string.

Definition C10_first : Outcome ObservedWatch :=
  schedule 1 (PPath C10_path) true C10_filter (BaseObserver_init starting 1).

(** The watch of the string ["/tmp/a/"] given as a [Path] object, then as the
    string itself. *)
Definition C10_calls : list ScheduleCall :=
  [ MkCall 1 (PPath (Pathlib.Path "/tmp/a/")) false None;
    MkCall 1 (PStr "/tmp/a/") false None ].

(** A fresh engine with the default timeout: its queue is empty. *)
Definition C2_observer : BaseObserver :=
  BaseObserver_init starting DEFAULT_OBSERVER_TIMEOUT.

(** ** Further definitions *)

(** The string that the constructor of [ObservedWatch] stores for its
    [path] argument. *)
Definition path_string (p : PathArg) : string :=
  match p with PPath q => Pathlib.str q | PStr s => s end.

(** The first [schedule] on a new idle engine: handler 1 on [watch_a]. *)
Definition first_schedule : Outcome ObservedWatch :=
  schedule 1 (PStr "/tmp/a") false None (BaseObserver_init starting 1).

(** The engine of [first_schedule], started: it runs with the emitter of
    [watch_a]. *)
Definition running_a : BaseObserver := state_of (start (state_of first_schedule)).

(** The engine of [first_schedule] with handler 3 scheduled on [watch_b] as
    well. *)
Definition a_and_b : BaseObserver :=
  state_of (schedule 3 (PStr "/tmp/b") false None (state_of first_schedule)).

(** The calls on the emitter threads of a list of emitters, one per
    emitter and in the order of the list. *)
Definition calls_on (mk : nat → ThreadCall) (ems : list EventEmitter) : list ThreadCall :=
  (λ em, mk (em_id em)) <$> ems.

(** Handler 2 raises when it is invoked; the other handlers do nothing. *)
Definition raising_dispatch : Handler → FileSystemEvent → M unit :=
  λ h _, if decide (h = 2) then raise HandlerError else ret tt.

(** An idle engine whose emitters start, with handler 1 scheduled on
    [watch_a] and handler 3 on [watch_b]. *)
Definition two_watches : BaseObserver :=
  state_of (schedule_all
              [MkCall 1 (PStr "/tmp/a") false None; MkCall 3 (PStr "/tmp/b") false None]
              (BaseObserver_init starting 1)).

(** The engine of [first_schedule] with one event for [watch_a] on its
    queue. *)
Definition pending_a : BaseObserver :=
  set_event_queue (EventQueue.put (event_entry modified_x watch_a) EventQueue.new)
    (state_of first_schedule).

(** The public operations of the engine, [schedule] with any iterable as
    [event_filter]. *)
Inductive Call :=
| CallSchedule (event_handler : Handler) (path : PathArg) (recursive : bool)
    (event_filter : option Iterable)
| CallUnschedule (watch : ObservedWatch)
| CallUnscheduleAll
| CallStart.

Definition run_call (c : Call) : M unit :=
  match c with
  | CallSchedule h p r f => bind (schedule_iterable h p r f) (λ _, ret tt)
  | CallUnschedule w => unschedule w
  | CallUnscheduleAll => unschedule_all
  | CallStart => start
  end.

(** The calls made one after the other by a caller that catches what a call
    raises and goes on. *)
Definition run_calls (cs : list Call) (o : BaseObserver) : BaseObserver :=
  foldl (λ o' c, state_of (run_call c o')) o cs.

(** The filter argument can be read more than once: it is [None] or a
    collection. *)
Definition rereadable (event_filter : option Iterable) : Prop :=
  match event_filter with
  | Some (Iterator _) => False
  | _ => True
  end.

Definition call_rereadable (c : Call) : Prop :=
  match c with
  | CallSchedule _ _ _ f => rereadable f
  | _ => True
  end.

(** Every emitter of the Producer Registry stands in relation [P] to the
    watch it is filed under. *)
Definition registry_all (P : ObservedWatch → EventEmitter → Prop)
    (o : BaseObserver) : Prop :=
  ∀ w em, emitter_for_watch o !! w = Some em → P w em.

(** The emitter observes its watch with the timeout [tm] and a filter that is
    the filter of the watch, or is empty although the watch has a filter. *)
Definition filed (tm : N) (w : ObservedWatch) (em : EventEmitter) : Prop :=
  em_watch em = w ∧ em_timeout em = tm ∧
  (em_event_filter em = event_filter w ∨
   (is_Some (event_filter w) ∧ em_event_filter em = Some ∅)).

(** The emitter observes its watch with the timeout [tm] and the filter of
    the watch. *)
Definition configured (tm : N) (w : ObservedWatch) (em : EventEmitter) : Prop :=
  em_watch em = w ∧ em_timeout em = tm ∧ em_event_filter em = event_filter w.

(** The event is an instance of a class of the filter argument, or there is
    no filter. *)
Definition passes (f : option (list EventClass)) (ev : FileSystemEvent) : Prop :=
  match f with
  | None => True
  | Some l => ∃ cls, cls ∈ l ∧ cls ∈ ev_mro ev
  end.

(** ** watchdog.utils.platform *)

Module Platform.

#[local] Open Scope string_scope.

Definition PLATFORM_WINDOWS : string := "windows".
Definition PLATFORM_LINUX : string := "linux".
Definition PLATFORM_BSD : string := "bsd".
Definition PLATFORM_DARWIN : string := "darwin".
Definition PLATFORM_UNKNOWN : string := "unknown".

(** [s.startswith(prefix)] *)
Definition startswith (s p : string) : bool := String.prefix p s.

(** [s.startswith((p1, p2, ...))] *)
Definition startswith_any (s : string) (ps : list string) : bool :=
  existsb (startswith s) ps.

(** [get_platform_name], as a function of [sys.platform]. *)
Definition get_platform_name (sys_platform : string) : string :=
  if startswith sys_platform "win" then PLATFORM_WINDOWS
  else if startswith sys_platform "darwin" then PLATFORM_DARWIN
  else if startswith sys_platform "linux" then PLATFORM_LINUX
  else if startswith_any sys_platform ["dragonfly"; "freebsd"; "netbsd"; "openbsd"; "bsd"]
  then PLATFORM_BSD
  else PLATFORM_UNKNOWN.

(** [is_linux], [is_bsd], [is_darwin], [is_windows]: the module computes
    [__platform__ = get_platform_name()] once and compares it. *)
Definition is_linux (sys_platform : string) : bool :=
  bool_decide (get_platform_name sys_platform = PLATFORM_LINUX).
Definition is_bsd (sys_platform : string) : bool :=
  bool_decide (get_platform_name sys_platform = PLATFORM_BSD).
Definition is_darwin (sys_platform : string) : bool :=
  bool_decide (get_platform_name sys_platform = PLATFORM_DARWIN).
Definition is_windows (sys_platform : string) : bool :=
  bool_decide (get_platform_name sys_platform = PLATFORM_WINDOWS).

End Platform.

(** ** Running the registry methods *)

Ltac run_obs :=
  repeat (unfold bind, gets, modify, ret, raise; simpl).

Lemma add_handler_run h w o :
  _add_handler_for_watch h w o = Ok tt (set_handlers (add_handler h w (handlers o)) o).
Proof.
  unfold _add_handler_for_watch, add_handler, bind, gets, modify, ret.
  destruct (handlers o !! w) as [s|] eqn:E; unfold set_handlers; simpl; do 2 f_equal.
  - apply map_eq. intros k. destruct (decide (w = k)) as [->|Hne].
    + rewrite lookup_alter_eq, lookup_insert_eq, E. done.
    + rewrite lookup_alter_ne, lookup_insert_ne by done. done.
  - apply map_eq. intros k. destruct (decide (w = k)) as [->|Hne].
    + rewrite lookup_alter_eq, !lookup_insert_eq. simpl. done.
    + rewrite lookup_alter_ne, !lookup_insert_ne by done. done.
Qed.

(** [schedule] in one piece: the observer it leaves, case by case. *)
Lemma schedule_run h p r f o :
  let w := ObservedWatch_init p r f in
  let o1 := set_handlers (add_handler h w (handlers o)) o in
  schedule h p r f o =
    match emitter_for_watch o !! w with
    | Some _ => Ok w (set_watches ({[w]} ∪ watches o) o1)
    | None =>
        let em := EventEmitter_init (next_id o) w (timeout o) f in
        let o2 := set_next_id (S (next_id o)) o1 in
        let reg o3 := set_watches ({[w]} ∪ watches o)
                        (set_emitters ({[em]} ∪ emitters o)
                           (set_emitter_for_watch (<[w := em]> (emitter_for_watch o)) o3)) in
        if alive o then
          if starts (emitter_class o) w
          then Ok w (reg (log_call (ThreadStart (next_id o)) o2))
          else Raise StartError o2
        else Ok w (reg o2)
    end.
Proof.
  intros w o1. unfold schedule. fold w. unfold bind at 1. rewrite add_handler_run. fold o1.
  unfold _add_emitter, emitter_start, is_alive. run_obs.
  destruct (emitter_for_watch o !! w) eqn:E; simpl; [reflexivity|].
  destruct (alive o); simpl; [|reflexivity].
  destruct (starts (emitter_class o) w); simpl; reflexivity.
Qed.

(** What a returning [schedule] did to the registries. *)
Lemma schedule_ok h p r f o w o' :
  schedule h p r f o = Ok w o' →
  w = ObservedWatch_init p r f ∧
  handlers o' = add_handler h w (handlers o) ∧
  watches o' = {[w]} ∪ watches o ∧
  match emitter_for_watch o !! w with
  | Some _ => emitter_for_watch o' = emitter_for_watch o ∧ emitters o' = emitters o
  | None =>
      let em := EventEmitter_init (next_id o) w (timeout o) f in
      emitter_for_watch o' = <[w := em]> (emitter_for_watch o) ∧
      emitters o' = {[em]} ∪ emitters o
  end.
Proof.
  rewrite schedule_run. simpl.
  destruct (emitter_for_watch o !! ObservedWatch_init p r f) eqn:E.
  - intros [= <- <-]. rewrite E. done.
  - destruct (alive o); [destruct (starts _ _); [|done]|];
      intros [= <- <-]; rewrite E; done.
Qed.

(** What a raising [schedule] left behind. *)
Lemma schedule_raise h p r f o e o' :
  schedule h p r f o = Raise e o' →
  let w := ObservedWatch_init p r f in
  e = StartError ∧ alive o = true ∧ starts (emitter_class o) w = false ∧
  emitter_for_watch o !! w = None ∧
  o' = set_next_id (S (next_id o)) (set_handlers (add_handler h w (handlers o)) o).
Proof.
  rewrite schedule_run. simpl.
  destruct (emitter_for_watch o !! ObservedWatch_init p r f) eqn:E; [done|].
  destruct (alive o); [|done]. destruct (starts _ _) eqn:Es; [done|].
  intros [= <- <-]. done.
Qed.

Lemma schedule_not_blocked h p r f o o' : schedule h p r f o ≠ Blocked o'.
Proof.
  rewrite schedule_run. simpl.
  destruct (emitter_for_watch o !! _); [done|].
  destruct (alive o); [destruct (starts _ _)|]; done.
Qed.

Lemma schedule_keeps_emitters h p r f o w o' :
  emitters_are_registry o →
  schedule h p r f o = Ok w o' →
  emitters_are_registry o'.
Proof.
  intros [H1 H2] Hs. apply schedule_ok in Hs as (-> & _ & _ & Hreg).
  set (w := ObservedWatch_init p r f) in *.
  destruct (emitter_for_watch o !! w) eqn:E.
  - destruct Hreg as [Ha Hb]. unfold emitters_are_registry. rewrite Ha, Hb. done.
  - simpl in Hreg. destruct Hreg as [Ha Hb].
    unfold emitters_are_registry. rewrite Ha, Hb. split.
    + intros w' em. destruct (decide (w = w')) as [<-|Hne].
      * rewrite lookup_insert_eq. intros [= <-]. split; [done|].
        apply elem_of_union. left. by apply elem_of_singleton.
      * rewrite lookup_insert_ne by done. intros Hl.
        destruct (H1 _ _ Hl). split; [done|]. apply elem_of_union. by right.
    + intros em [->%elem_of_singleton|Hin]%elem_of_union.
      * simpl. by rewrite lookup_insert_eq.
      * specialize (H2 _ Hin). rewrite lookup_insert_ne; [done|].
        intros Heq. rewrite <- Heq in H2. congruence.
Qed.

Lemma key_inj w1 w2 : key w1 = key w2 → w1 = w2.
Proof. destruct w1, w2. unfold key. simpl. by intros [= -> -> ->]. Qed.

Lemma schedule_all_ok cs : ∀ o ws o',
  emitters_are_registry o →
  schedule_all cs o = Ok ws o' →
  ws = call_watch <$> cs ∧
  dom (emitter_for_watch o') =
    dom (emitter_for_watch o) ∪ list_to_set (call_watch <$> cs) ∧
  emitters_are_registry o'.
Proof.
  induction cs as [|c cs IH]; intros o ws o' Hinv; simpl.
  - intros [= <- <-]. split; [done|]. split; [|done].
    by rewrite union_empty_r_L.
  - unfold bind at 1. unfold do_schedule.
    destruct (schedule _ _ _ _ o) as [w o1| |] eqn:Hs; [|done..].
    unfold bind at 1.
    destruct (schedule_all cs o1) as [ws1 o2| |] eqn:Hall; [|done..].
    intros [= <- <-].
    pose proof (schedule_keeps_emitters _ _ _ _ _ _ _ Hinv Hs) as Hinv1.
    destruct (IH _ _ _ Hinv1 Hall) as (-> & Hdom & Hinv2).
    apply schedule_ok in Hs as (Hw & _ & _ & Hreg).
    fold (call_watch c) in Hw. subst w.
    split; [done|]. split; [|done].
    rewrite Hdom.
    destruct (emitter_for_watch o !! call_watch c) eqn:E.
    + destruct Hreg as [-> _].
      assert (call_watch c ∈ dom (emitter_for_watch o)) by (apply elem_of_dom; eauto).
      set_solver.
    + simpl in Hreg. destruct Hreg as [-> _]. rewrite dom_insert_L. set_solver.
Qed.

Lemma returned_eq {A} (d : A) (r : Outcome A) :
  returned r = true → r = Ok (value_of d r) (state_of r).
Proof. by destruct r. Qed.

Lemma watch_eq_spec w1 w2 : watch_eq w1 w2 = true ↔ w1 = w2.
Proof.
  unfold watch_eq. rewrite bool_decide_eq_true. split; [apply key_inj|by intros ->].
Qed.

(** ** C4: one Producer per distinct descriptor *)

(** C4. After a sequence of [schedule] calls that all returned, the
    descriptors returned are those built from the arguments, the keys of the
    Producer Registry are the keys it had before and the descriptors
    scheduled, so that on an observer whose registry was empty its size is the
    number of distinct descriptors scheduled, not the number of calls; two
    calls whose descriptors have equal keys return equal descriptors, and the
    registry holds one emitter for them, the only emitter of the observer with
    that watch. *)
Theorem C4_one_producer_per_distinct_descriptor cs o ws o' :
  emitters_are_registry o →
  schedule_all cs o = Ok ws o' →
  ws = call_watch <$> cs ∧
  dom (emitter_for_watch o') =
    dom (emitter_for_watch o) ∪ list_to_set (call_watch <$> cs) ∧
  (emitter_for_watch o = ∅ →
   size (emitter_for_watch o') =
     size (list_to_set (call_watch <$> cs) : gset ObservedWatch)) ∧
  (∀ c1 c2, c1 ∈ cs → c2 ∈ cs →
     watch_eq (call_watch c1) (call_watch c2) = true →
     call_watch c1 = call_watch c2 ∧
     ∃ em, emitter_for_watch o' !! call_watch c1 = Some em ∧
           emitter_for_watch o' !! call_watch c2 = Some em ∧
           ∀ em', em' ∈ emitters o' → em_watch em' = call_watch c1 → em' = em).
Proof.
  intros Hinv Hall.
  destruct (schedule_all_ok _ _ _ _ Hinv Hall) as (Hws & Hdom & [Hr1 Hr2]).
  split; [done|]. split; [done|]. split.
  - intros Hempty. rewrite <- size_dom, Hdom, Hempty, dom_empty_L, union_empty_l_L.
    done.
  - intros c1 c2 Hc1 _ Heq. apply watch_eq_spec in Heq. split; [done|].
    assert (call_watch c1 ∈ dom (emitter_for_watch o')) as [em Hem]%elem_of_dom.
    { rewrite Hdom. apply elem_of_union. right. apply elem_of_list_to_set.
      by apply list_elem_of_fmap_2. }
    exists em. rewrite <- Heq. split; [done|]. split; [done|].
    intros em' Hin Hw. apply Hr2 in Hin. rewrite Hw in Hin. congruence.
Qed.

Lemma init_emitters_are_registry cls tm :
  emitters_are_registry (BaseObserver_init cls tm).
Proof. split; simpl; [intros w em Hl; by rewrite lookup_empty in Hl|set_solver]. Qed.

Lemma C4_witness :
  let o := BaseObserver_init starting 1 in
  let r := schedule_all C4_calls o in
  let o' := state_of r in
  value_of [] r = call_watch <$> C4_calls ∧
  dom (emitter_for_watch o') =
    dom (emitter_for_watch o) ∪ list_to_set (call_watch <$> C4_calls) ∧
  (emitter_for_watch o = ∅ →
   size (emitter_for_watch o') =
     size (list_to_set (call_watch <$> C4_calls) : gset ObservedWatch)) ∧
  (∀ c1 c2, c1 ∈ C4_calls → c2 ∈ C4_calls →
     watch_eq (call_watch c1) (call_watch c2) = true →
     call_watch c1 = call_watch c2 ∧
     ∃ em, emitter_for_watch o' !! call_watch c1 = Some em ∧
           emitter_for_watch o' !! call_watch c2 = Some em ∧
           ∀ em', em' ∈ emitters o' → em_watch em' = call_watch c1 → em' = em).
Proof.
  intros o r o'.
  apply (C4_one_producer_per_distinct_descriptor C4_calls o (value_of [] r) o').
  - apply init_emitters_are_registry.
  - exact (returned_eq [] r (eq_refl true <: returned r = true)).
Defined.

(** A decidable proposition holds when its decision procedure says so. *)
Lemma by_decide (P : Prop) `{Decision P} : bool_decide P = true → P.
Proof. apply bool_decide_eq_true_1. Qed.

Ltac decide_by_vm :=
  lazymatch goal with
  | |- ?P =>
      let d := constr:(_ : Decision P) in
      exact (@by_decide P d (@eq_refl bool true <: @bool_decide P d = true))
  end.

(** ** C7: lookup failures leave the registries as they were *)

Lemma not_scheduled_no_emitter o w :
  watches_are_registry o → w ∉ watches o → emitter_for_watch o !! w = None.
Proof.
  unfold watches_are_registry. intros -> Hw. by apply not_elem_of_dom.
Qed.

(** C7. [unschedule] of a watch without an entry in the Producer Registry
    (so, under the registry invariant, of a watch that is not in the Active
    Watch Set), and [remove_handler_for_watch] of an unknown watch or of a
    handler that is not registered for the watch, raise [KeyError] and leave
    the observer, with its Handler Registry, Producer Registry and Active
    Watch Set, exactly as it was. *)
Theorem C7_lookup_failure_keeps_registries o w h :
  (emitter_for_watch o !! w = None → unschedule w o = Raise KeyError o) ∧
  (watches_are_registry o → w ∉ watches o → unschedule w o = Raise KeyError o) ∧
  (handlers o !! w = None → remove_handler_for_watch h w o = Raise KeyError o) ∧
  (h ∉ handlers_get w o → remove_handler_for_watch h w o = Raise KeyError o).
Proof.
  assert (emitter_for_watch o !! w = None → unschedule w o = Raise KeyError o) as Hu.
  { intros E. unfold unschedule. run_obs. by rewrite E. }
  split; [exact Hu|]. split.
  { intros Hinv Hw. apply Hu. by apply not_scheduled_no_emitter. }
  split.
  - intros E. unfold remove_handler_for_watch. run_obs. by rewrite E.
  - unfold handlers_get, remove_handler_for_watch. run_obs.
    destruct (handlers o !! w) as [s|]; simpl; [|done].
    intros Hh. by rewrite decide_False.
Qed.

Lemma C7_witness :
  unschedule watch_b C7_observer = Raise KeyError C7_observer ∧
  remove_handler_for_watch 1 watch_b C7_observer = Raise KeyError C7_observer ∧
  remove_handler_for_watch 2 watch_a C7_observer = Raise KeyError C7_observer.
Proof.
  destruct (C7_lookup_failure_keeps_registries C7_observer watch_b 1)
    as (Hu & _ & Hr & _).
  destruct (C7_lookup_failure_keeps_registries C7_observer watch_a 2)
    as (_ & _ & _ & Hh).
  split; [|split].
  - apply Hu. decide_by_vm.
  - apply Hr. decide_by_vm.
  - apply Hh. decide_by_vm.
Defined.

(** ** C3: a failing start inside [schedule] *)

(** C3, as the code has it. On a running engine, when the watch has no
    Producer and the start of the newly built one raises, [schedule] raises
    that failure; the Producer Registry and the set of emitters are as before,
    so the Producer is in neither, and the Active Watch Set is as before, so
    the descriptor was not added to it (and is not in it when the registry
    invariant held); the handler, which was attached before the Producer was
    built, is still attached to the descriptor. *)
Theorem C3_failed_start_in_schedule h p r f o :
  is_alive o = true →
  emitter_for_watch o !! ObservedWatch_init p r f = None →
  starts (emitter_class o) (ObservedWatch_init p r f) = false →
  ∃ o', schedule h p r f o = Raise StartError o' ∧
        emitter_for_watch o' = emitter_for_watch o ∧
        emitter_for_watch o' !! ObservedWatch_init p r f = None ∧
        emitters o' = emitters o ∧
        watches o' = watches o ∧
        (watches_are_registry o → ObservedWatch_init p r f ∉ watches o') ∧
        h ∈ handlers_get (ObservedWatch_init p r f) o'.
Proof.
  intros Ha He Hs. eexists. rewrite schedule_run. simpl.
  unfold is_alive in Ha. rewrite He, Ha, Hs. split; [reflexivity|]. simpl.
  split; [done|]. split; [done|]. split; [done|]. split; [done|]. split.
  - unfold watches_are_registry. intros ->. by apply not_elem_of_dom.
  - unfold handlers_get, add_handler. simpl. rewrite lookup_insert_eq. simpl.
    apply elem_of_union. left. by apply elem_of_singleton.
Qed.

Lemma C3_witness :
  ∃ o', schedule 7 (PStr "/tmp/a") false None C3_observer = Raise StartError o' ∧
        emitter_for_watch o' = emitter_for_watch C3_observer ∧
        emitter_for_watch o' !! ObservedWatch_init (PStr "/tmp/a") false None = None ∧
        emitters o' = emitters C3_observer ∧
        watches o' = watches C3_observer ∧
        (watches_are_registry C3_observer →
         ObservedWatch_init (PStr "/tmp/a") false None ∉ watches o') ∧
        7 ∈ handlers_get (ObservedWatch_init (PStr "/tmp/a") false None) o'.
Proof.
  apply (C3_failed_start_in_schedule 7 (PStr "/tmp/a") false None C3_observer);
    reflexivity.
Defined.

(** C3, as the specification has it, fails: after the failed [schedule] the
    handler is left attached to the descriptor in the Handler Registry. *)
Lemma C3_counterexample :
  let w := ObservedWatch_init (PStr "/tmp/a") false None in
  let r := schedule 7 (PStr "/tmp/a") false None C3_observer in
  is_alive C3_observer = true ∧
  handlers C3_observer !! w = None ∧
  returned r = false ∧
  elements (handlers_get w (state_of r)) = [7].
Proof.
  split; [reflexivity|]. split; [reflexivity|]. split; vm_compute; reflexivity.
Qed.

(** ** C5: the Active Watch Set and the Producer Registry *)

Lemma same_registries_refl o : same_registries o o.
Proof. by repeat split. Qed.

Lemma same_registries_trans o1 o2 o3 :
  same_registries o1 o2 → same_registries o2 o3 → same_registries o1 o3.
Proof.
  intros (? & ? & ? & ? & ?) (? & ? & ? & ? & ?). repeat split; congruence.
Qed.

Lemma for_each_log (mk : nat → ThreadCall) l : ∀ o,
  ∃ o', for_each l (λ em, modify (log_call (mk (em_id em)))) o = Ok tt o' ∧
        same_registries o o'.
Proof.
  induction l as [|em l IH]; intros o; simpl.
  - eexists. split; [reflexivity|apply same_registries_refl].
  - unfold bind at 1. unfold modify at 1.
    destruct (IH (log_call (mk (em_id em)) o)) as (o' & Hr & Hs).
    exists o'. split; [exact Hr|].
    eapply same_registries_trans; [|exact Hs]. by repeat split.
Qed.

Lemma remove_emitter_run em o :
  emitter_for_watch o !! em_watch em = Some em → em ∈ emitters o →
  _remove_emitter em o =
    Ok tt (log_call (ThreadJoin (em_id em)) (log_call (ThreadStop (em_id em))
      (set_emitters (emitters o ∖ {[em]})
         (set_emitter_for_watch (delete (em_watch em) (emitter_for_watch o)) o)))).
Proof.
  intros Hl Hin. unfold _remove_emitter, dict_del, emitter_stop, emitter_join.
  run_obs. rewrite Hl. simpl. rewrite decide_True by done. reflexivity.
Qed.

Lemma start_or_remove_run em o :
  emitter_for_watch o !! em_watch em = Some em → em ∈ emitters o →
  start_or_remove em o =
    if starts (emitter_class o) (em_watch em)
    then Ok tt (log_call (ThreadStart (em_id em)) o)
    else Raise StartError
           (log_call (ThreadJoin (em_id em)) (log_call (ThreadStop (em_id em))
              (set_emitters (emitters o ∖ {[em]})
                 (set_emitter_for_watch
                    (delete (em_watch em) (emitter_for_watch o)) o)))).
Proof.
  intros Hl Hin. unfold start_or_remove, emitter_start.
  unfold bind at 1. unfold gets at 1.
  destruct (starts (emitter_class o) (em_watch em)); [reflexivity|].
  unfold raise at 1. unfold bind at 1. by rewrite remove_emitter_run.
Qed.

(** The loop of [start]: every emitter of the list starts and the registries
    are untouched, or the first one that fails is removed from the Producer
    Registry and from the set of emitters, and nothing else changes. *)
Lemma start_loop_run l : ∀ o,
  (∀ em, em ∈ l → emitter_for_watch o !! em_watch em = Some em ∧ em ∈ emitters o) →
  (∃ o', for_each l start_or_remove o = Ok tt o' ∧ same_registries o o') ∨
  (∃ em o', em ∈ l ∧ for_each l start_or_remove o = Raise StartError o' ∧
     emitter_for_watch o' = delete (em_watch em) (emitter_for_watch o) ∧
     emitters o' = emitters o ∖ {[em]} ∧
     watches o' = watches o ∧ handlers o' = handlers o).
Proof.
  induction l as [|em l IH]; intros o Hl.
  - left. eexists. split; [reflexivity|apply same_registries_refl].
  - destruct (Hl em) as [Hem Hin]; [apply list_elem_of_here|].
    assert (for_each (em :: l) start_or_remove o =
            match start_or_remove em o with
            | Ok _ o1 => for_each l start_or_remove o1
            | Raise e o1 => Raise e o1
            | Blocked o1 => Blocked o1
            end) as -> by reflexivity.
    rewrite start_or_remove_run by done.
    destruct (starts (emitter_class o) (em_watch em)) eqn:Es.
    + destruct (IH (log_call (ThreadStart (em_id em)) o)) as
        [(o' & Hr & Hs)|(em' & o' & Hin' & Hr & Hs)].
      { intros em' Hin'. apply Hl. by apply list_elem_of_further. }
      * left. exists o'. split; [exact Hr|exact Hs].
      * right. exists em', o'. split; [by apply list_elem_of_further|].
        split; [exact Hr|exact Hs].
    + right. exists em. eexists. split; [apply list_elem_of_here|].
      split; [reflexivity|]. done.
Qed.

Lemma start_run o :
  emitters_are_registry o →
  (∃ o', start o = Ok tt o' ∧
     emitter_for_watch o' = emitter_for_watch o ∧ emitters o' = emitters o ∧
     watches o' = watches o ∧ handlers o' = handlers o ∧ alive o' = true) ∨
  (∃ em o', em ∈ emitters o ∧ start o = Raise StartError o' ∧
     emitter_for_watch o' = delete (em_watch em) (emitter_for_watch o) ∧
     emitters o' = emitters o ∖ {[em]} ∧
     watches o' = watches o ∧ handlers o' = handlers o).
Proof.
  intros [H1 H2].
  assert (start o =
          match for_each (elements (emitters o)) start_or_remove o with
          | Ok _ o1 => Ok tt (set_alive true o1)
          | Raise e o1 => Raise e o1
          | Blocked o1 => Blocked o1
          end) as -> by reflexivity.
  destruct (start_loop_run (elements (emitters o)) o) as
    [(o' & Hr & Hs)|(em & o' & Hin & Hr & Hs)].
  { intros em Hin%elem_of_elements. split; [by apply H2|done]. }
  - left. rewrite Hr. eexists. split; [reflexivity|].
    destruct Hs as (? & ? & ? & ? & ?). simpl. done.
  - right. exists em, o'. rewrite Hr. split; [by apply elem_of_elements|]. done.
Qed.

Lemma unschedule_all_run o :
  ∃ o', unschedule_all o = Ok tt o' ∧
        emitter_for_watch o' = ∅ ∧ emitters o' = ∅ ∧ watches o' = ∅ ∧ handlers o' = ∅.
Proof.
  unfold unschedule_all, _clear_emitters, emitter_stop, emitter_join.
  unfold bind at 1. unfold modify at 1. unfold bind at 1. unfold bind at 1.
  unfold bind at 1. unfold gets at 1.
  destruct (for_each_log ThreadStop (elements (emitters (set_handlers ∅ o)))
              (set_handlers ∅ o)) as (o1 & -> & Hs1).
  unfold bind at 1. unfold bind at 1. unfold gets at 1.
  destruct (for_each_log ThreadJoin (elements (emitters o1)) o1) as (o2 & -> & Hs2).
  run_obs. eexists. split; [reflexivity|]. simpl.
  destruct Hs2 as (_ & _ & _ & -> & _). destruct Hs1 as (_ & _ & _ & -> & _). done.
Qed.

Lemma unschedule_run w o :
  emitters_are_registry o → dom (emitter_for_watch o) ⊆ watches o →
  unschedule w o =
    match emitter_for_watch o !! w, handlers o !! w with
    | Some em, Some _ =>
        Ok tt (set_watches (watches o ∖ {[w]})
          (log_call (ThreadJoin (em_id em)) (log_call (ThreadStop (em_id em))
            (set_emitters (emitters o ∖ {[em]})
              (set_emitter_for_watch (delete w (emitter_for_watch o))
                (set_handlers (delete w (handlers o)) o))))))
    | _, _ => Raise KeyError o
    end.
Proof.
  intros [H1 H2] Hsub. unfold unschedule. unfold bind at 1. unfold gets at 1.
  destruct (emitter_for_watch o !! w) as [em|] eqn:E; [|reflexivity].
  destruct (H1 _ _ E) as [Hw Hin].
  unfold bind at 1. unfold dict_del at 1. unfold bind at 1. unfold gets at 1.
  destruct (handlers o !! w) eqn:Eh; [|reflexivity].
  unfold modify at 1. unfold bind at 1.
  rewrite remove_emitter_run by (simpl; by rewrite ?Hw).
  run_obs. rewrite decide_True.
  2:{ apply Hsub. apply elem_of_dom. eauto. }
  rewrite Hw. reflexivity.
Qed.

Lemma removal_keeps_emitters o o' w em :
  emitters_are_registry o →
  emitter_for_watch o !! w = Some em →
  emitter_for_watch o' = delete w (emitter_for_watch o) →
  emitters o' = emitters o ∖ {[em]} →
  emitters_are_registry o'.
Proof.
  intros [H1 H2] Hl He Hs. unfold emitters_are_registry. rewrite He, Hs.
  destruct (H1 _ _ Hl) as [Hw _]. split.
  - intros w' em' Hl'. apply lookup_delete_Some in Hl' as [Hne Hl'].
    destruct (H1 _ _ Hl') as [Hw' Hin']. split; [done|].
    apply elem_of_difference. split; [done|].
    intros ->%elem_of_singleton. congruence.
  - intros em' [Hin Hne]%elem_of_difference.
    specialize (H2 _ Hin). rewrite lookup_delete_ne; [done|].
    intros Heq. rewrite <- Heq in H2. apply Hne, elem_of_singleton. congruence.
Qed.

Lemma schedule_returns_when_idle h p r f o :
  alive o = false →
  schedule h p r f o = Ok (ObservedWatch_init p r f) (state_of (schedule h p r f o)).
Proof.
  intros Ha. rewrite schedule_run. simpl. rewrite Ha.
  by destruct (emitter_for_watch o !! _).
Qed.

Lemma first_schedule_ok cls tm h p r f :
  emitters_are_registry (state_of (schedule h p r f (BaseObserver_init cls tm))) ∧
  watches_are_registry (state_of (schedule h p r f (BaseObserver_init cls tm))).
Proof.
  pose proof (schedule_returns_when_idle h p r f (BaseObserver_init cls tm) eq_refl)
    as Hs.
  split.
  - eapply schedule_keeps_emitters; [apply init_emitters_are_registry|exact Hs].
  - apply schedule_ok in Hs as (_ & _ & Hw & Hreg). simpl in Hreg.
    rewrite lookup_empty in Hreg. destruct Hreg as [He _].
    unfold watches_are_registry. rewrite Hw, He, dom_insert_L. done.
Qed.

Lemma run_op_schedule c o :
  run_op (OpSchedule c) o =
    match schedule (call_handler c) (call_path c) (call_recursive c) (call_filter c) o with
    | Ok _ o' => Ok tt o'
    | Raise e o' => Raise e o'
    | Blocked o' => Blocked o'
    end.
Proof. reflexivity. Qed.

(** One public operation, however it ends, keeps the emitters those of the
    Producer Registry and the registered descriptors inside the Active Watch
    Set; it keeps the two sets equal unless it is a [start] that raised. *)
Lemma run_op_keeps_registry op o :
  emitters_are_registry o →
  dom (emitter_for_watch o) ⊆ watches o →
  emitters_are_registry (state_of (run_op op o)) ∧
  dom (emitter_for_watch (state_of (run_op op o))) ⊆ watches (state_of (run_op op o)) ∧
  (watches_are_registry o →
   (op = OpStart → returned (run_op op o) = true) →
   watches_are_registry (state_of (run_op op o))).
Proof.
  intros Hinv Hsub. unfold watches_are_registry. destruct op as [c|w| |].
  - rewrite run_op_schedule.
    destruct (schedule _ _ _ _ o) as [w o'|e o'|o'] eqn:Hs.
    + pose proof (schedule_keeps_emitters _ _ _ _ _ _ _ Hinv Hs) as Hinv'.
      apply schedule_ok in Hs as (-> & _ & Hw & Hreg). simpl.
      set (w := ObservedWatch_init _ _ _) in *. split; [done|]. rewrite Hw.
      destruct (emitter_for_watch o !! w) eqn:E.
      * destruct Hreg as [-> _].
        assert (w ∈ dom (emitter_for_watch o)) by (apply elem_of_dom; eauto).
        split; [set_solver|]. intros -> _. set_solver.
      * simpl in Hreg. destruct Hreg as [-> _]. rewrite dom_insert_L.
        split; [set_solver|]. intros -> _. done.
    + apply schedule_raise in Hs as (_ & _ & _ & _ & ->). simpl.
      split; [done|]. split; [done|]. by intros -> _.
    + by apply schedule_not_blocked in Hs.
  - simpl. rewrite unschedule_run by done.
    destruct (emitter_for_watch o !! w) as [em|] eqn:E; simpl; [|by auto].
    destruct (handlers o !! w) eqn:Eh; simpl; [|by auto]. split; [|split].
    + by eapply (removal_keeps_emitters o _ w em).
    + rewrite dom_delete_L. set_solver.
    + intros -> _. by rewrite dom_delete_L.
  - simpl. destruct (unschedule_all_run o) as (o' & -> & He & Hs & Hw & _). simpl.
    unfold emitters_are_registry. rewrite He, Hs, Hw, dom_empty_L.
    split; [|done]. split; [intros w em Hl; by rewrite lookup_empty in Hl|set_solver].
  - simpl. destruct (start_run o Hinv) as
      [(o' & -> & He & Hs & Hw & _)|(em & o' & Hin & -> & He & Hs & Hw & _)]; simpl.
    + unfold emitters_are_registry. rewrite He, Hs, Hw. split; [done|].
      split; [done|]. by intros -> _.
    + split; [|split].
      * eapply (removal_keeps_emitters o o' (em_watch em) em); try done.
        by apply Hinv.
      * rewrite He, Hw, dom_delete_L. set_solver.
      * intros _ Hret. by specialize (Hret eq_refl).
Qed.

(** Operations in which every [start] returned keep the Active Watch Set
    equal to the keys of the Producer Registry. *)
Lemma run_ops_keeps_equal ops : ∀ o,
  emitters_are_registry o →
  watches_are_registry o →
  every_start_returns ops o = true →
  watches_are_registry (run_ops ops o).
Proof.
  induction ops as [|op ops IH]; intros o Hinv Heq Hret; [done|].
  simpl in Hret. apply andb_true_iff in Hret as [Hop Hrest].
  assert (dom (emitter_for_watch o) ⊆ watches o) as Hsub
    by (unfold watches_are_registry in Heq; by rewrite Heq).
  destruct (run_op_keeps_registry op o Hinv Hsub) as (Hinv' & _ & Heq').
  simpl. apply IH; [done| |done]. apply Heq'; [done|]. by intros ->.
Qed.

(** A [start] that raises leaves the watch of the emitter that failed in the
    Active Watch Set, without an entry in the Producer Registry. *)
Lemma failed_start_leaves_watch o :
  emitters_are_registry o →
  watches_are_registry o →
  returned (start o) = false →
  ∃ w, w ∈ watches (state_of (start o)) ∧
       emitter_for_watch (state_of (start o)) !! w = None.
Proof.
  intros Hinv Heq Hret.
  destruct (start_run o Hinv) as
    [(o' & Hs & _)|(em & o' & Hin & Hs & He & _ & Hw & _)]; rewrite Hs in *;
    [done|].
  exists (em_watch em). simpl. rewrite He, Hw, lookup_delete_eq. split; [|done].
  unfold watches_are_registry in Heq. rewrite Heq. apply elem_of_dom.
  destruct Hinv as [_ H2]. eauto.
Qed.

(** C5, as the code has it. In every state that the public operations
    ([schedule], [unschedule], [unschedule_all], [start]) reach from a new
    engine, however each of them ended, every descriptor with an entry in the
    Producer Registry is in the Active Watch Set, and one more operation keeps
    that.  The Active Watch Set is exactly the set of the registry's keys
    after [unschedule_all], and in every state reached from a new engine, or
    from an [unschedule_all], by operations in which every [start] returned:
    [schedule], [unschedule], [unschedule_all] and a [start] that returned
    keep the two sets equal.  A [start] that raises does not: from a state
    in which the two sets are equal it leaves a descriptor in the Active
    Watch Set that has no entry in the Producer Registry. *)
Theorem C5_registry_within_active_watch_set ops cls tm op ops' :
  let o := run_ops ops (BaseObserver_init cls tm) in
  let cleared := state_of (run_op OpUnscheduleAll o) in
  dom (emitter_for_watch o) ⊆ watches o ∧
  dom (emitter_for_watch (state_of (run_op op o))) ⊆ watches (state_of (run_op op o)) ∧
  (every_start_returns ops (BaseObserver_init cls tm) = true →
   watches_are_registry o) ∧
  watches_are_registry cleared ∧
  (every_start_returns ops' cleared = true →
   watches_are_registry (run_ops ops' cleared)) ∧
  (watches_are_registry o →
   (op = OpStart → returned (run_op op o) = true) →
   watches_are_registry (state_of (run_op op o))) ∧
  (watches_are_registry o →
   returned (run_op OpStart o) = false →
   ∃ w, w ∈ watches (state_of (run_op OpStart o)) ∧
        emitter_for_watch (state_of (run_op OpStart o)) !! w = None).
Proof.
  assert (∀ l o, emitters_are_registry o ∧ dom (emitter_for_watch o) ⊆ watches o →
                 emitters_are_registry (run_ops l o) ∧
                 dom (emitter_for_watch (run_ops l o)) ⊆ watches (run_ops l o)) as Hreach.
  { induction l as [|op' l IH]; intros o [Hinv Hsub]; [done|].
    apply IH. destruct (run_op_keeps_registry op' o Hinv Hsub) as (? & ? & _). done. }
  assert (watches_are_registry (BaseObserver_init cls tm)) as Hnew.
  { unfold watches_are_registry. simpl. by rewrite dom_empty_L. }
  destruct (Hreach ops (BaseObserver_init cls tm)) as [Hinv Hsub].
  { split; [apply init_emitters_are_registry|]. simpl. by rewrite dom_empty_L. }
  intros o cleared. fold o in Hinv, Hsub.
  destruct (run_op_keeps_registry op o Hinv Hsub) as (_ & Hsub' & Heq).
  destruct (run_op_keeps_registry OpUnscheduleAll o Hinv Hsub) as (Hinvc & _ & _).
  fold cleared in Hinvc.
  assert (watches_are_registry cleared) as Hcleared.
  { unfold cleared. simpl.
    destruct (unschedule_all_run o) as (o' & -> & He & _ & Hw & _).
    unfold watches_are_registry. simpl. by rewrite He, Hw, dom_empty_L. }
  split; [exact Hsub|]. split; [exact Hsub'|]. split.
  { intros Hret. apply run_ops_keeps_equal; [apply init_emitters_are_registry|done..]. }
  split; [exact Hcleared|]. split.
  { intros Hret. by apply run_ops_keeps_equal. }
  split; [exact Heq|].
  intros Hoeq Hret. by apply failed_start_leaves_watch.
Qed.

Lemma C5_observer_ok :
  emitters_are_registry C5_observer ∧ watches_are_registry C5_observer.
Proof. apply first_schedule_ok. Qed.

Lemma C5_witness :
  let o := run_ops [OpSchedule (MkCall 1 (PStr "/tmp/a") false None)]
             (BaseObserver_init failing_on_a 1) in
  let cleared := state_of (run_op OpUnscheduleAll o) in
  let op := OpSchedule (MkCall 3 (PStr "/tmp/b") false None) in
  let ops' := [OpSchedule (MkCall 3 (PStr "/tmp/b") false None); OpStart] in
  dom (emitter_for_watch o) ⊆ watches o ∧
  dom (emitter_for_watch (state_of (run_op op o))) ⊆ watches (state_of (run_op op o)) ∧
  watches_are_registry o ∧
  watches_are_registry cleared ∧
  watches_are_registry (run_ops ops' cleared) ∧
  watches_are_registry (state_of (run_op op o)) ∧
  (∃ w, w ∈ watches (state_of (run_op OpStart o)) ∧
        emitter_for_watch (state_of (run_op OpStart o)) !! w = None).
Proof.
  intros o cleared op ops'.
  destruct (C5_registry_within_active_watch_set
              [OpSchedule (MkCall 1 (PStr "/tmp/a") false None)] failing_on_a 1 op ops')
    as (H1 & H2 & H3 & H4 & H5 & H6 & H7).
  split; [exact H1|]. split; [exact H2|].
  split; [exact (H3 eq_refl)|]. split; [exact H4|].
  split; [exact (H5 (eq_refl true <: every_start_returns ops' cleared = true))|].
  split; [apply H6; [exact (H3 eq_refl)|discriminate]|].
  apply H7; [exact (H3 eq_refl)|].
  exact (eq_refl false <: returned (run_op OpStart o) = false).
Defined.

(** After the rollback of [start] a later [schedule] and [unschedule] of
    another descriptor both return and do not restore the equality: the
    descriptor of the emitter that failed stays in the Active Watch Set
    without an entry in the Producer Registry. *)
Example C5_rollback_is_not_repaired :
  let o1 := state_of (run_op OpStart C5_observer) in
  let o2 := state_of (run_op (OpSchedule (MkCall 3 (PStr "/tmp/b") false None)) o1) in
  let o3 := state_of (run_op (OpUnschedule watch_b) o2) in
  returned (run_op (OpSchedule (MkCall 3 (PStr "/tmp/b") false None)) o1) = true ∧
  returned (run_op (OpUnschedule watch_b) o2) = true ∧
  elements (watches o3) = [watch_a] ∧
  emitter_for_watch o3 !! watch_a = None.
Proof.
  intros o1 o2 o3.
  split; [exact (eq_refl true
                   <: returned (run_op (OpSchedule (MkCall 3 (PStr "/tmp/b") false None))
                                  o1) = true)|].
  split; [exact (eq_refl true <: returned (run_op (OpUnschedule watch_b) o2) = true)|].
  split; decide_by_vm.
Qed.

(** C5, as the specification has it, fails on the rollback path of
    [start]: the observer satisfies the invariant, [start] raises, and
    afterwards the descriptor is in the Active Watch Set without an entry in
    the Producer Registry. *)
Lemma C5_counterexample :
  watches_are_registry C5_observer ∧
  returned (run_op OpStart C5_observer) = false ∧
  elements (watches (state_of (run_op OpStart C5_observer))) = [watch_a] ∧
  emitter_for_watch (state_of (run_op OpStart C5_observer)) !! watch_a = None.
Proof.
  split; [apply C5_observer_ok|].
  split; [vm_compute; reflexivity|].
  split.
  - decide_by_vm.
  - decide_by_vm.
Qed.

(** ** The dispatch loop *)

Section Dispatch.

Variable dispatch : Handler → FileSystemEvent → M unit.

#[local] Abbreviation loop := (dispatch_loop dispatch).

(** One turn of the loop. *)
Lemma dispatch_loop_cons ev w h rest o :
  loop ev w (h :: rest) o =
    if decide (h ∈ handlers_get w o) then
      match dispatch h ev o with
      | Ok _ o1 =>
          match loop ev w rest o1 with
          | Ok calls o2 => Ok (h :: calls) o2
          | Raise e o2 => Raise e o2
          | Blocked o2 => Blocked o2
          end
      | Raise e o1 => Raise e o1
      | Blocked o1 => Blocked o1
      end
    else loop ev w rest o.
Proof.
  simpl. unfold bind at 1. unfold gets at 1.
  destruct (decide (h ∈ handlers_get w o)); reflexivity.
Qed.

(** The loop over a snapshot cut in two. *)
Lemma dispatch_loop_app ev w pre post : ∀ o,
  loop ev w (pre ++ post) o =
    match loop ev w pre o with
    | Ok c1 o1 =>
        match loop ev w post o1 with
        | Ok c2 o2 => Ok (c1 ++ c2) o2
        | Raise e o2 => Raise e o2
        | Blocked o2 => Blocked o2
        end
    | Raise e o1 => Raise e o1
    | Blocked o1 => Blocked o1
    end.
Proof.
  induction pre as [|h pre IH]; intros o.
  - simpl. unfold ret. by destruct (loop ev w post o).
  - rewrite <- app_comm_cons, !dispatch_loop_cons.
    destruct (decide (h ∈ handlers_get w o)); [|apply IH].
    destruct (dispatch h ev o) as [[] o1| |]; [|done..].
    rewrite IH. destruct (loop ev w pre o1) as [c1 o2| |]; [|done..].
    by destruct (loop ev w post o2).
Qed.



(** [dispatch_events] on a real entry, in any order of the handlers. *)
Lemma dispatch_events_listing_entry listing ev w q o :
  EventQueue.get true None (event_queue o) = EventQueue.Got (event_entry ev w) q →
  dispatch_events_listing dispatch listing o =
    match loop ev w (listing (handlers_get w (set_event_queue q o)))
            (set_event_queue q o) with
    | Ok calls ol =>
        match EventQueue.task_done (event_queue ol) with
        | Some q' => Ok calls (set_event_queue q' ol)
        | None => Raise ValueError ol
        end
    | Raise e ol => Raise e ol
    | Blocked ol => Blocked ol
    end.
Proof.
  intros Hg. unfold dispatch_events_listing. rewrite Hg.
  unfold bind at 1. unfold gets at 1. unfold bind at 1.
  destruct (loop ev w _ _) as [calls ol| |]; [|done..].
  unfold task_done. run_obs. by destruct (EventQueue.task_done (event_queue ol)).
Qed.

(** [dispatch_events] on a real entry. *)
Lemma dispatch_events_entry ev w q o :
  EventQueue.get true None (event_queue o) = EventQueue.Got (event_entry ev w) q →
  dispatch_events dispatch o =
    match loop ev w (elements (handlers_get w (set_event_queue q o)))
            (set_event_queue q o) with
    | Ok calls ol =>
        match EventQueue.task_done (event_queue ol) with
        | Some q' => Ok calls (set_event_queue q' ol)
        | None => Raise ValueError ol
        end
    | Raise e ol => Raise e ol
    | Blocked ol => Blocked ol
    end.
Proof. apply dispatch_events_listing_entry. Qed.

(** Handlers that leave the registries and the queue alone are all
    invoked. *)
Lemma dispatch_loop_quiet ev w l : ∀ o,
  quiet dispatch → (∀ h, h ∈ l → h ∈ handlers_get w o) →
  ∃ o', loop ev w l o = Ok l o' ∧
        handlers o' = handlers o ∧ event_queue o' = event_queue o.
Proof.
  induction l as [|h l IH]; intros o Hq Hl.
  - by exists o.
  - rewrite dispatch_loop_cons, decide_True by (apply Hl, list_elem_of_here).
    destruct (Hq h ev o) as (o1 & -> & Hh1 & Hq1).
    destruct (IH o1 Hq) as (o2 & -> & Hh2 & Hq2).
    { intros h' Hin. unfold handlers_get. rewrite Hh1.
      by apply Hl, list_elem_of_further. }
    exists o2. split; [done|]. split; congruence.
Qed.


End Dispatch.

(** ** C1: the registration is checked again before each call *)



(** In that dispatch the snapshot is handler 2 then handler 1; handler 2 is
    invoked and removes handler 1, which is then skipped. *)
Example C1_removed_handler_is_skipped :
  elements (handlers_get watch_a C1_observer) = [2; 1] ∧
  value_of [] (dispatch_events C1_dispatch C1_observer) = [2] ∧
  EventQueue.unfinished_tasks
    (event_queue (state_of (dispatch_events C1_dispatch C1_observer))) = 0.
Proof. repeat split; vm_compute; reflexivity. Qed.

(** The loop runs over the snapshot: a handler added to the watch by a
    handler of the same dispatch is registered at the later calls and is not
    invoked for this event. *)
Example C1_added_handler_is_not_invoked :
  value_of [] (dispatch_events C1_dispatch_add C1_observer) = [2; 1] ∧
  elements (handlers_get watch_a
              (state_of (dispatch_events C1_dispatch_add C1_observer))) = [2; 3; 1].
Proof. split; vm_compute; reflexivity. Qed.

(** ** C8: the order in which the handlers of a watch are invoked *)

Lemma schedule_keeps_thread h p r f o :
  event_queue (state_of (schedule h p r f o)) = event_queue o ∧
  alive (state_of (schedule h p r f o)) = alive o.
Proof.
  rewrite schedule_run. simpl.
  destruct (emitter_for_watch o !! _); [split; reflexivity|].
  destruct (alive o) eqn:Ea; [destruct (starts _ _)|]; simpl; by rewrite ?Ea.
Qed.

Lemma quiet_ret : quiet no_dispatch.
Proof. intros h ev o. by exists o. Qed.

(** C8, as the code has it. On a fresh engine, after [schedule] of a watch
    with handler [h1] and then with a different handler [h2], the dispatch of
    one event for the watch to handlers that return and leave the registries
    and the queue alone invokes [h1] and [h2] once each, in the order in which
    the set of the two handlers is listed.  The code fixes no such order:
    the statement holds for every one. *)
Theorem C8_handlers_invoked_in_set_order dispatch listing cls tm h1 h2 p r f ev :
  quiet dispatch →
  (∀ s, listing s ≡ₚ elements s) →
  h1 ≠ h2 →
  ∃ calls o4,
    dispatch_events_listing dispatch listing
      (set_event_queue
         (EventQueue.put (event_entry ev (ObservedWatch_init p r f)) EventQueue.new)
         (state_of (schedule h2 p r f
            (state_of (schedule h1 p r f (BaseObserver_init cls tm))))))
      = Ok calls o4 ∧
    calls = listing ({[h1]} ∪ {[h2]}) ∧
    calls ≡ₚ [h1; h2].
Proof.
  intros Hq Hlist Hne.
  set (w := ObservedWatch_init p r f). set (o0 := BaseObserver_init cls tm).
  pose proof (schedule_returns_when_idle h1 p r f o0 eq_refl) as Hs1.
  set (o1 := state_of (schedule h1 p r f o0)) in *.
  destruct (schedule_keeps_thread h1 p r f o0) as [_ Ha1]. fold o1 in Ha1.
  pose proof (schedule_returns_when_idle h2 p r f o1 Ha1) as Hs2.
  set (o2 := state_of (schedule h2 p r f o1)) in *.
  apply schedule_ok in Hs1 as (_ & Hh1 & _). apply schedule_ok in Hs2 as (_ & Hh2 & _).
  fold w in Hh1, Hh2.
  assert (∀ q, handlers_get w (set_event_queue q o2) = {[h1]} ∪ {[h2]}) as Hget.
  { intros q. unfold handlers_get. simpl. rewrite Hh2, Hh1. unfold add_handler.
    rewrite !lookup_insert_eq. simpl. set_solver. }
  set (q1 := EventQueue.MkQueue [] (Some (event_entry ev w)) 0 1).
  rewrite (dispatch_events_listing_entry dispatch listing ev w q1) by reflexivity.
  destruct (dispatch_loop_quiet dispatch ev w
              (listing (handlers_get w (set_event_queue q1
                 (set_event_queue (EventQueue.put (event_entry ev w) EventQueue.new) o2))))
              (set_event_queue q1
                 (set_event_queue (EventQueue.put (event_entry ev w) EventQueue.new) o2))
              Hq)
    as (ol & -> & _ & Hql).
  { intros h Hin. rewrite Hlist in Hin. by apply elem_of_elements. }
  rewrite Hql. simpl. eexists _, _. split; [reflexivity|].
  change (set_event_queue q1 (set_event_queue _ o2)) with (set_event_queue q1 o2).
  rewrite Hget. split; [done|]. rewrite Hlist.
  rewrite elements_union_singleton by (by intros ?%elem_of_singleton).
  by rewrite elements_singleton.
Qed.

Lemma C8_witness :
  ∃ calls o4,
    dispatch_events_listing no_dispatch elements C8_observer = Ok calls o4 ∧
    calls = elements ({[1]} ∪ {[2]} : gset Handler) ∧
    calls ≡ₚ [1; 2].
Proof.
  exact (C8_handlers_invoked_in_set_order no_dispatch elements starting 1
           1 2 (PStr "/tmp/a") false None modified_x quiet_ret
           (λ s, reflexivity (elements s))
           (λ H : 1 = 2, eq_ind 1 (λ n, match n with 1 => True | _ => False end) I 2 H)).
Defined.

(** The two handlers in either order: the set listed by [elements], and
    listed the other way round. *)
Example C8_either_order :
  value_of [] (dispatch_events_listing no_dispatch elements C8_observer) = [2; 1] ∧
  value_of [] (dispatch_events_listing no_dispatch (λ s, reverse (elements s))
                 C8_observer) = [1; 2].
Proof. split; vm_compute; reflexivity. Qed.

(** C8, as the specification has it, fails: handler 1 was scheduled first,
    and with the set listed in the order of [elements] the event is
    dispatched to handler 2 first. *)
Lemma C8_counterexample :
  returned (dispatch_events no_dispatch C8_observer) = true ∧
  value_of [] (dispatch_events no_dispatch C8_observer) = [2; 1].
Proof. split; vm_compute; reflexivity. Qed.

(** ** C6: the queue skips an entry equal to the last one enqueued *)

Lemma put_all_items xs : ∀ q,
  EventQueue.items (put_all xs q) =
    EventQueue.items q ++ skip_repeats (EventQueue.last_item q) xs.
Proof.
  induction xs as [|x xs IH]; intros q; simpl.
  - by rewrite app_nil_r.
  - fold (put_all xs (EventQueue.put x q)). rewrite IH. unfold EventQueue.put.
    destruct (decide (EventQueue.last_item q = Some x)) as [Heq|Hne]; simpl.
    + done.
    + by rewrite <- app_assoc.
Qed.

Lemma drain_items n : ∀ q,
  length (EventQueue.items q) ≤ n → drain n q = EventQueue.items q.
Proof.
  induction n as [|n IH]; intros [[|x l] last m u]; simpl; intros Hlen; try done; try lia.
  unfold EventQueue.get. simpl. f_equal. apply IH. simpl. lia.
Qed.

Lemma skip_repeats_length prev xs : length (skip_repeats prev xs) ≤ length xs.
Proof.
  revert prev. induction xs as [|x xs IH]; intros prev; simpl; [done|].
  destruct (decide (prev = Some x)); simpl; [specialize (IH prev)|specialize (IH (Some x))];
    lia.
Qed.

(** C6. [put] leaves the queue as it is when the entry equals the last
    entry enqueued and appends the entry otherwise; the comparison is with
    that last entry only.  Entries put one after the other on a new queue are
    stored, and handed out, with each run of consecutive equal entries
    collapsed to one: for two different entries [A] and [B], the sequence
    [A, A, A, B, A] is stored and delivered as [A, B, A]. *)
Theorem C6_put_skips_consecutive_repeats (A B x : Entry) (q : EventQueue.t)
    (xs : list Entry) :
  A ≠ B →
  (EventQueue.last_item q = Some x → EventQueue.put x q = q) ∧
  (EventQueue.last_item q ≠ Some x →
   EventQueue.items (EventQueue.put x q) = EventQueue.items q ++ [x] ∧
   EventQueue.last_item (EventQueue.put x q) = Some x) ∧
  EventQueue.items (put_all xs EventQueue.new) = skip_repeats None xs ∧
  drain (length xs) (put_all xs EventQueue.new) = skip_repeats None xs ∧
  EventQueue.items (put_all [A; A; A; B; A] EventQueue.new) = [A; B; A] ∧
  drain 5 (put_all [A; A; A; B; A] EventQueue.new) = [A; B; A].
Proof.
  intros Hne.
  assert (∀ ys, EventQueue.items (put_all ys EventQueue.new) = skip_repeats None ys)
    as Hitems by (intros ys; by rewrite put_all_items).
  assert (∀ ys, drain (length ys) (put_all ys EventQueue.new) = skip_repeats None ys)
    as Hdrain.
  { intros ys. rewrite drain_items; [apply Hitems|].
    rewrite Hitems. apply skip_repeats_length. }
  assert (skip_repeats None [A; A; A; B; A] = [A; B; A]) as Hex.
  { cbn [skip_repeats]. repeat case_decide; congruence. }
  repeat split.
  - intros Hl. unfold EventQueue.put. by rewrite decide_True.
  - unfold EventQueue.put. by rewrite decide_False.
  - unfold EventQueue.put. by rewrite decide_False.
  - apply Hitems.
  - apply Hdrain.
  - by rewrite Hitems.
  - etrans; [exact (Hdrain [A; A; A; B; A])|exact Hex].
Qed.

Lemma C6_witness :
  EventQueue.items (put_all [C6_A; C6_A; C6_A; C6_B; C6_A] EventQueue.new)
    = [C6_A; C6_B; C6_A] ∧
  drain 5 (put_all [C6_A; C6_A; C6_A; C6_B; C6_A] EventQueue.new) = [C6_A; C6_B; C6_A] ∧
  EventQueue.put C6_A (EventQueue.put C6_A EventQueue.new)
    = EventQueue.put C6_A EventQueue.new.
Proof.
  assert (C6_A ≠ C6_B) as Hne by discriminate.
  destruct (C6_put_skips_consecutive_repeats C6_A C6_B C6_A
              (EventQueue.put C6_A EventQueue.new) [] Hne)
    as (Hsame & _ & _ & _ & Hitems & Hdrain).
  split; [exact Hitems|]. split; [exact Hdrain|]. apply Hsame. reflexivity.
Defined.

(** ** C9: the filter of an emitter *)

Lemma any_isinstance_spec event classes :
  any_isinstance event classes = true ↔
  ∃ cls, cls ∈ classes ∧ cls ∈ ev_mro event.
Proof.
  unfold any_isinstance. rewrite existsb_exists. split.
  - intros (cls & Hin & Hi). exists cls. split.
    + by apply elem_of_elements, list_elem_of_In.
    + by apply bool_decide_eq_true in Hi.
  - intros (cls & Hin & Hi). exists cls. split.
    + by apply list_elem_of_In, elem_of_elements.
    + by apply bool_decide_eq_true.
Qed.

(** C9, as the code has it. [queue_event] puts the pair of the event and
    the emitter's watch on the queue when the filter of the emitter is [None]
    or the event is an instance of a member of the filter, that is, when some
    member of the filter is the class of the event or a class it inherits
    from; it leaves the queue alone when the filter holds no such class.  In
    particular the pair is put when the class of the event is itself a
    member of the filter. *)
Theorem C9_queue_event_filters_by_isinstance em event q :
  (em_event_filter em = None →
   queue_event em event q = EventQueue.put (event_entry event (em_watch em)) q) ∧
  (∀ classes cls,
     em_event_filter em = Some classes → cls ∈ classes → cls ∈ ev_mro event →
     queue_event em event q = EventQueue.put (event_entry event (em_watch em)) q) ∧
  (∀ classes,
     em_event_filter em = Some classes →
     (∀ cls, cls ∈ classes → cls ∉ ev_mro event) →
     queue_event em event q = q) ∧
  (kind_is_member event (em_event_filter em) = true →
   queue_event em event q = EventQueue.put (event_entry event (em_watch em)) q).
Proof.
  assert (∀ classes cls,
    em_event_filter em = Some classes → cls ∈ classes → cls ∈ ev_mro event →
    queue_event em event q = EventQueue.put (event_entry event (em_watch em)) q) as Hin.
  { intros classes cls Hf Hc Hm. unfold queue_event. rewrite Hf.
    replace (any_isinstance event classes) with true; [done|].
    symmetry. apply any_isinstance_spec. eauto. }
  split; [|split; [exact Hin|split]].
  - intros Hf. unfold queue_event. by rewrite Hf.
  - intros classes Hf Hnone. unfold queue_event. rewrite Hf.
    destruct (any_isinstance event classes) eqn:E; [|done].
    apply any_isinstance_spec in E as (cls & Hc & Hm). by destruct (Hnone cls Hc).
  - unfold kind_is_member, ev_class.
    destruct (em_event_filter em) as [classes|] eqn:Hf.
    + destruct (ev_mro event) as [|cls mro] eqn:Hm; [done|]. simpl.
      intros Hc%bool_decide_eq_true. apply (Hin classes cls eq_refl Hc).
      rewrite ?Hm. apply list_elem_of_here.
    + intros _. unfold queue_event. by rewrite Hf.
Qed.

Lemma C9_witness :
  queue_event C9_emitter modified_x EventQueue.new
    = EventQueue.put (event_entry modified_x watch_a) EventQueue.new ∧
  queue_event
    C9_emitter'
    modified_x EventQueue.new = EventQueue.new.
Proof.
  split.
  - destruct (C9_queue_event_filters_by_isinstance C9_emitter modified_x EventQueue.new)
      as (_ & Hin & _).
    apply (Hin {["FileSystemEvent"%string]} "FileSystemEvent"%string).
    + reflexivity.
    + by apply elem_of_singleton.
    + simpl. apply list_elem_of_further, list_elem_of_here.
  - destruct (C9_queue_event_filters_by_isinstance
                C9_emitter'
                modified_x EventQueue.new) as (_ & _ & Hout & _).
    apply (Hout {["DirCreatedEvent"%string]}).
    + reflexivity.
    + intros cls ->%elem_of_singleton. decide_by_vm.
Defined.

(** C9, as the specification has it, fails: the kind of the event is not a
    member of the filter, and the pair is put on the queue all the same,
    because the class of the event inherits from a member of the filter. *)
Lemma C9_counterexample :
  ev_class modified_x = Some "FileModifiedEvent"%string ∧
  kind_is_member modified_x (em_event_filter C9_emitter) = false ∧
  EventQueue.items (queue_event C9_emitter modified_x EventQueue.new)
    = [event_entry modified_x watch_a].
Proof. repeat split; vm_compute; reflexivity. Qed.

(** ** C10: the constructor normalises the path and the filter *)

Lemma frozen_same_members f f' : same_members f f' → frozen f = frozen f'.
Proof.
  destruct f as [l|], f' as [l'|]; simpl; try done.
  intros Hm. f_equal. apply set_eq. intros cls. by rewrite !elem_of_list_to_set.
Qed.

(** A second [schedule] of a descriptor that has a Producer returns the
    descriptor and builds nothing. *)
Lemma schedule_again h p r f o :
  is_Some (emitter_for_watch o !! ObservedWatch_init p r f) →
  ∃ o', schedule h p r f o = Ok (ObservedWatch_init p r f) o' ∧
        emitter_for_watch o' = emitter_for_watch o ∧ emitters o' = emitters o.
Proof.
  intros [em Hem]. rewrite schedule_run. simpl. rewrite Hem. eexists. done.
Qed.

(** C10, as the code has it. The constructor stores a [Path] object as its
    string form and a filter iterable as the set of its members.  So the
    descriptor built from a [Path] object [P] and the one built from the
    string [str(P)], with filters that have the same members, are equal, have
    the same hash, and collapse to the same Producer: after a [schedule] of
    the first that returned, a [schedule] of the second returns the same
    descriptor and leaves the Producer Registry and the emitters as they are.
    The descriptors built from [Path(p)] and from the string [p] are equal
    when [p] is the string form of [Path(p)]. *)
Theorem C10_constructor_normalises P r f f' hash h h' o w o1 :
  same_members f f' →
  schedule h (PPath P) r f o = Ok w o1 →
  path w = Pathlib.str P ∧
  event_filter w = frozen f ∧
  ObservedWatch_init (PPath P) r f = ObservedWatch_init (PStr (Pathlib.str P)) r f' ∧
  watch_eq (ObservedWatch_init (PPath P) r f)
           (ObservedWatch_init (PStr (Pathlib.str P)) r f') = true ∧
  watch_hash hash (ObservedWatch_init (PPath P) r f)
    = watch_hash hash (ObservedWatch_init (PStr (Pathlib.str P)) r f') ∧
  (∃ o2, schedule h' (PStr (Pathlib.str P)) r f' o1 = Ok w o2 ∧
         emitter_for_watch o2 = emitter_for_watch o1 ∧ emitters o2 = emitters o1) ∧
  (∀ p, Pathlib.str (Pathlib.Path p) = p →
        ObservedWatch_init (PPath (Pathlib.Path p)) r f = ObservedWatch_init (PStr p) r f').
Proof.
  intros Hm Hs. apply frozen_same_members in Hm.
  assert (ObservedWatch_init (PPath P) r f
          = ObservedWatch_init (PStr (Pathlib.str P)) r f') as Heq.
  { unfold ObservedWatch_init. by rewrite Hm. }
  apply schedule_ok in Hs as (-> & _ & _ & Hreg).
  split; [done|]. split; [done|]. split; [done|].
  split; [by apply watch_eq_spec|]. split; [by rewrite Heq|]. split.
  - rewrite Heq in Hreg |- *. apply schedule_again.
    destruct (emitter_for_watch o !! _) eqn:E.
    + destruct Hreg as [-> _]. eauto.
    + simpl in Hreg. destruct Hreg as [-> _]. rewrite lookup_insert_eq. eauto.
  - intros p Hp. unfold ObservedWatch_init. by rewrite Hm, Hp.
Qed.

Lemma C10_same_members : same_members C10_filter C10_filter'.
Proof.
  intros cls. rewrite !list_elem_of_In. simpl. tauto.
Defined.

Lemma C10_witness :
  path (value_of watch_a C10_first) = Pathlib.str C10_path ∧
  event_filter (value_of watch_a C10_first) = frozen C10_filter ∧
  ObservedWatch_init (PPath C10_path) true C10_filter
    = ObservedWatch_init (PStr (Pathlib.str C10_path)) true C10_filter' ∧
  watch_eq (ObservedWatch_init (PPath C10_path) true C10_filter)
           (ObservedWatch_init (PStr (Pathlib.str C10_path)) true C10_filter') = true ∧
  watch_hash (λ _, 0%Z) (ObservedWatch_init (PPath C10_path) true C10_filter)
    = watch_hash (λ _, 0%Z)
        (ObservedWatch_init (PStr (Pathlib.str C10_path)) true C10_filter') ∧
  (∃ o2, schedule 2 (PStr (Pathlib.str C10_path)) true C10_filter' (state_of C10_first)
           = Ok (value_of watch_a C10_first) o2 ∧
         emitter_for_watch o2 = emitter_for_watch (state_of C10_first) ∧
         emitters o2 = emitters (state_of C10_first)) ∧
  (∀ p, Pathlib.str (Pathlib.Path p) = p →
        ObservedWatch_init (PPath (Pathlib.Path p)) true C10_filter
          = ObservedWatch_init (PStr p) true C10_filter').
Proof.
  exact (C10_constructor_normalises C10_path true C10_filter C10_filter' (λ _, 0%Z) 1 2
           (BaseObserver_init starting 1)
           (value_of watch_a C10_first) (state_of C10_first)
           C10_same_members
           (returned_eq watch_a C10_first (eq_refl true <: returned C10_first = true))).
Defined.

(** C10, as the specification has it, fails: [Path("/tmp/a/")] has the
    string form ["/tmp/a"], so the descriptor built from it differs from the
    one built from the string ["/tmp/a/"], and scheduling both gives two
    Producers. *)
Lemma C10_counterexample :
  Pathlib.str (Pathlib.Path "/tmp/a/") = "/tmp/a"%string ∧
  watch_eq (ObservedWatch_init (PPath (Pathlib.Path "/tmp/a/")) false None)
           (ObservedWatch_init (PStr "/tmp/a/") false None) = false ∧
  returned (schedule_all C10_calls (BaseObserver_init starting 1))
    = true ∧
  size (emitter_for_watch
          (state_of (schedule_all C10_calls
                       (BaseObserver_init starting 1)))) = 2.
Proof. repeat split; vm_compute; reflexivity. Qed.

(** ** C2: the read of the consumer loop and [stop] *)

Lemma full_not_empty q : EventQueue.full q = true → EventQueue.items q ≠ [].
Proof.
  unfold EventQueue.full. intros [Hpos Hlen]%bool_decide_eq_true Hnil.
  rewrite Hnil in Hlen. simpl in Hlen. lia.
Qed.

Lemma put_not_empty x q :
  EventQueue.last_item q ≠ Some x → EventQueue.items (EventQueue.put x q) ≠ [].
Proof.
  intros Hne. unfold EventQueue.put. rewrite decide_False by done. simpl.
  by destruct (EventQueue.items q).
Qed.

Lemma stop_run o :
  stop o = Ok tt (if EventQueue.full (event_queue o)
                  then set_stopped true o
                  else set_event_queue (EventQueue.put stop_event (event_queue o))
                         (set_stopped true o)).
Proof.
  unfold stop, BaseThread_stop, EventQueue.put_nowait. run_obs.
  by destruct (EventQueue.full (event_queue o)).
Qed.

(** C2, what the code does. The docstring of
    [EventDispatcher.dispatch_events] promises a read that blocks on the queue
    for the timeout and then raises [queue.Empty], which [run] catches to go
    round; the method of [BaseObserver] does not keep that promise.  Its read
    is a blocking
    [get] without timeout: on an empty queue the call waits for an entry and
    signals no [queue.Empty], and the run loop waits with it.  [stop] sets the
    stop flag and offers the stop sentinel without blocking: a full queue
    keeps its entries, a queue that is not full takes the sentinel by [put].
    Unless the sentinel is dropped as a repeat of the last entry enqueued, the
    queue is not empty after [stop], so the read returns; a consumer that was
    waiting on the empty queue takes the sentinel and returns without
    dispatching.  After [stop] the run loop ends at its next check of the
    flag. *)
Theorem C2_consumer_read_has_no_timeout dispatch o :
  (EventQueue.items (event_queue o) = [] →
   dispatch_events dispatch o = Blocked o ∧
   (should_keep_running o = true →
    ∀ fuel, run dispatch (S fuel) o = Some (Blocked o))) ∧
  (should_keep_running (state_of (stop o)) = false) ∧
  (returned (stop o) = true) ∧
  (EventQueue.full (event_queue o) = true →
   event_queue (state_of (stop o)) = event_queue o) ∧
  (EventQueue.full (event_queue o) = false →
   event_queue (state_of (stop o)) = EventQueue.put stop_event (event_queue o)) ∧
  (EventQueue.last_item (event_queue o) ≠ Some stop_event →
   EventQueue.items (event_queue (state_of (stop o))) ≠ [] ∧
   EventQueue.get true None (event_queue (state_of (stop o))) ≠ EventQueue.Waits) ∧
  (EventQueue.items (event_queue o) = [] →
   EventQueue.last_item (event_queue o) ≠ Some stop_event →
   ∃ o', dispatch_events dispatch (state_of (stop o)) = Ok [] o' ∧
         EventQueue.items (event_queue o') = []) ∧
  (∀ fuel, run dispatch (S fuel) (state_of (stop o)) = Some (Ok tt (state_of (stop o)))).
Proof.
  rewrite stop_run. simpl.
  split; [|split; [|split; [|split; [|split; [|split; [|split]]]]]].
  - intros Hempty.
    assert (dispatch_events dispatch o = Blocked o) as Hb.
    { unfold dispatch_events, dispatch_events_listing, EventQueue.get.
      by rewrite Hempty. }
    split; [exact Hb|]. intros Hrun fuel. simpl. by rewrite Hrun, Hb.
  - by destruct (EventQueue.full (event_queue o)).
  - done.
  - by intros ->.
  - by intros ->.
  - intros Hlast.
    assert (EventQueue.items
              (event_queue
                 (if EventQueue.full (event_queue o) then set_stopped true o
                  else set_event_queue (EventQueue.put stop_event (event_queue o))
                         (set_stopped true o))) ≠ []) as Hne.
    { destruct (EventQueue.full (event_queue o)) eqn:Ef; simpl.
      - by apply full_not_empty.
      - by apply put_not_empty. }
    split; [exact Hne|]. unfold EventQueue.get.
    by destruct (EventQueue.items _).
  - intros Hempty Hlast.
    assert (EventQueue.full (event_queue o) = false) as ->.
    { destruct (EventQueue.full (event_queue o)) eqn:Ef; [|done].
      by apply full_not_empty in Ef. }
    unfold dispatch_events, dispatch_events_listing, EventQueue.get, EventQueue.put.
    simpl.
    rewrite decide_False by done. simpl. rewrite Hempty. simpl.
    eexists. split; [reflexivity|]. done.
  - intros fuel. simpl.
    by destruct (EventQueue.full (event_queue o)).
Qed.

Lemma C2_witness :
  dispatch_events no_dispatch C2_observer = Blocked C2_observer ∧
  run no_dispatch 1 C2_observer = Some (Blocked C2_observer) ∧
  EventQueue.items (event_queue (state_of (stop C2_observer))) ≠ [] ∧
  (∃ o', dispatch_events no_dispatch (state_of (stop C2_observer)) = Ok [] o' ∧
         EventQueue.items (event_queue o') = []) ∧
  run no_dispatch 1 (state_of (stop C2_observer))
    = Some (Ok tt (state_of (stop C2_observer))).
Proof.
  destruct (C2_consumer_read_has_no_timeout no_dispatch C2_observer)
    as (Hempty & _ & _ & _ & _ & Hstop & Hwake & Hrun).
  destruct (Hempty eq_refl) as [Hb Hloop].
  split; [exact Hb|]. split; [exact (Hloop eq_refl 0)|].
  split; [apply Hstop; discriminate|].
  split; [apply Hwake; [reflexivity|discriminate]|].
  exact (Hrun 0).
Defined.

(** C2 at a failing input: on the empty queue of an engine with timeout 1 a
    read bounded by the timeout would signal the empty-result condition, but
    [dispatch_events] waits instead, and the run loop does not go round. *)
Lemma C2_counterexample :
  timeout C2_observer = 1%N ∧
  EventQueue.items (event_queue C2_observer) = [] ∧
  EventQueue.get true (Some (timeout C2_observer)) (event_queue C2_observer)
    = EventQueue.Empty ∧
  dispatch_events no_dispatch C2_observer = Blocked C2_observer ∧
  run no_dispatch 1 C2_observer = Some (Blocked C2_observer).
Proof. repeat split. Qed.

(** * Further properties of the code *)

(** ** The identity of a watch descriptor *)

Lemma same_members_frozen f f' : frozen f = frozen f' ↔ same_members f f'.
Proof.
  split; [|apply frozen_same_members].
  destruct f as [l|], f' as [l'|]; simpl; try done.
  intros [= Heq] cls. by rewrite <- !(elem_of_list_to_set (C := gset EventClass)), Heq.
Qed.

(** X1. Two descriptors built by the constructor are equal exactly when the
    strings stored for their paths are equal, their recursion flags are
    equal, and their filters are both [None] or have the same members; so a
    descriptor without filter differs from one with the empty filter.
    [__ne__] is the negation of [__eq__], and equal descriptors have equal
    hashes. *)
Theorem watch_eq_iff_same_arguments p r f p' r' f' hash :
  (watch_eq (ObservedWatch_init p r f) (ObservedWatch_init p' r' f') = true ↔
   path_string p = path_string p' ∧ r = r' ∧ same_members f f') ∧
  watch_ne (ObservedWatch_init p r f) (ObservedWatch_init p' r' f')
    = negb (watch_eq (ObservedWatch_init p r f) (ObservedWatch_init p' r' f')) ∧
  (watch_eq (ObservedWatch_init p r f) (ObservedWatch_init p' r' f') = true →
   watch_hash hash (ObservedWatch_init p r f)
     = watch_hash hash (ObservedWatch_init p' r' f')) ∧
  watch_eq (ObservedWatch_init p r None) (ObservedWatch_init p r (Some [])) = false.
Proof.
  split; [|split; [|split]].
  - unfold watch_eq. rewrite bool_decide_eq_true. unfold key. simpl.
    rewrite <- same_members_frozen. fold (path_string p) (path_string p').
    split; [by intros [= -> -> ->]|by intros (-> & -> & ->)].
  - unfold watch_ne, watch_eq. by rewrite bool_decide_not.
  - unfold watch_eq, watch_hash. by intros ->%bool_decide_eq_true.
  - unfold watch_eq. by apply bool_decide_eq_false.
Qed.

(** ** [schedule] and [unschedule] compose *)

Lemma add_handler_twice h w hs : add_handler h w (add_handler h w hs) = add_handler h w hs.
Proof.
  unfold add_handler. rewrite lookup_insert_eq, insert_insert_eq. simpl.
  f_equal. set_solver.
Qed.

Lemma observer_eta o :
  set_watches (watches o) (set_handlers (handlers o) o) = o.
Proof. by destruct o. Qed.

(** X2. [schedule] is idempotent: after a [schedule] that returned, a second
    [schedule] of the same handler with arguments that build the same
    descriptor returns that descriptor and leaves the observer exactly as it
    is. *)
Theorem schedule_again_changes_nothing h p r f p' f' o w o1 :
  schedule h p r f o = Ok w o1 →
  ObservedWatch_init p' r f' = w →
  schedule h p' r f' o1 = Ok w o1.
Proof.
  intros Hs Hw. apply schedule_ok in Hs as (Hw0 & Hh & Hws & Hreg).
  assert (is_Some (emitter_for_watch o1 !! w)) as [em Hem].
  { destruct (emitter_for_watch o !! w) eqn:E.
    - destruct Hreg as [-> _]. eauto.
    - simpl in Hreg. destruct Hreg as [-> _]. rewrite lookup_insert_eq. eauto. }
  rewrite schedule_run. simpl. rewrite Hw, Hem. f_equal.
  replace ({[w]} ∪ watches o1) with (watches o1) by (rewrite Hws; set_solver).
  replace (add_handler h w (handlers o1)) with (handlers o1)
    by (rewrite Hh; symmetry; apply add_handler_twice).
  apply observer_eta.
Qed.

Lemma schedule_again_witness :
  schedule 1 (PPath (Pathlib.Path "/tmp/a")) false None (state_of first_schedule)
    = Ok (value_of watch_b first_schedule) (state_of first_schedule).
Proof.
  refine (schedule_again_changes_nothing 1 (PStr "/tmp/a") false None
            (PPath (Pathlib.Path "/tmp/a")) None (BaseObserver_init starting 1)
            (value_of watch_b first_schedule) (state_of first_schedule)
            (returned_eq watch_b first_schedule
               (eq_refl true <: returned first_schedule = true)) _).
  decide_by_vm.
Defined.

Lemma running_a_ok :
  emitters_are_registry running_a ∧
  dom (emitter_for_watch running_a) ⊆ watches running_a.
Proof.
  destruct (first_schedule_ok starting 1 1 (PStr "/tmp/a") false None) as [Hinv Heq].
  assert (dom (emitter_for_watch (state_of first_schedule))
            ⊆ watches (state_of first_schedule)) as Hsub.
  { unfold watches_are_registry in Heq. unfold first_schedule. by rewrite Heq. }
  destruct (run_op_keeps_registry OpStart (state_of first_schedule) Hinv Hsub)
    as (Hinv' & Hsub' & _).
  split; [exact Hinv'|exact Hsub'].
Qed.

(** X3. [unschedule] undoes [schedule]: when a watch that the engine does
    not know (no handler entry, not in the Active Watch Set) is scheduled and
    then unscheduled, on an engine that is idle or whose emitter class starts
    the emitter of the watch, both calls return and the Handler Registry, the
    Producer Registry, the set of emitters and the Active Watch Set are again
    what they were before the [schedule]. *)
Theorem unschedule_undoes_schedule h p r f o :
  emitters_are_registry o →
  dom (emitter_for_watch o) ⊆ watches o →
  handlers o !! ObservedWatch_init p r f = None →
  ObservedWatch_init p r f ∉ watches o →
  (alive o = true → starts (emitter_class o) (ObservedWatch_init p r f) = true) →
  ∃ o1 o2,
    schedule h p r f o = Ok (ObservedWatch_init p r f) o1 ∧
    unschedule (ObservedWatch_init p r f) o1 = Ok tt o2 ∧
    handlers o2 = handlers o ∧
    emitter_for_watch o2 = emitter_for_watch o ∧
    emitters o2 = emitters o ∧
    watches o2 = watches o.
Proof.
  intros Hinv Hsub Hh Hw Hstart.
  set (w := ObservedWatch_init p r f) in *.
  assert (emitter_for_watch o !! w = None) as He.
  { apply not_elem_of_dom. intros Hd. by apply Hw, Hsub. }
  assert (∃ o1, schedule h p r f o = Ok w o1) as [o1 Hs].
  { rewrite schedule_run. simpl. fold w. rewrite He.
    destruct (alive o); [rewrite Hstart by done|]; eauto. }
  exists o1. rewrite Hs.
  pose proof (schedule_keeps_emitters _ _ _ _ _ _ _ Hinv Hs) as Hinv1.
  apply schedule_ok in Hs as (_ & Hh1 & Hw1 & Hreg). fold w in Hreg.
  rewrite He in Hreg. simpl in Hreg. destruct Hreg as [He1 Hes1].
  set (em := EventEmitter_init (next_id o) w (timeout o) f) in *.
  assert (em ∉ emitters o) as Hem.
  { intros Hin. destruct Hinv as [_ H2]. apply H2 in Hin. simpl in Hin. congruence. }
  rewrite unschedule_run; [|done|rewrite He1, Hw1, dom_insert_L; set_solver].
  assert (emitter_for_watch o1 !! w = Some em) as ->
    by (rewrite He1; apply lookup_insert_eq).
  assert (is_Some (handlers o1 !! w)) as [s ->]
    by (rewrite Hh1; unfold add_handler; rewrite lookup_insert_eq; eauto).
  eexists. split; [reflexivity|]. split; [reflexivity|]. simpl.
  rewrite Hh1, He1, Hes1, Hw1. unfold add_handler.
  rewrite !delete_insert_id by done. split; [done|]. split; [done|].
  split; set_solver.
Qed.

Lemma unschedule_undoes_schedule_witness :
  alive running_a = true ∧
  watch_a ∈ watches running_a ∧
  ∃ o1 o2,
    schedule 3 (PStr "/tmp/b") false None running_a = Ok watch_b o1 ∧
    unschedule watch_b o1 = Ok tt o2 ∧
    handlers o2 = handlers running_a ∧
    emitter_for_watch o2 = emitter_for_watch running_a ∧
    emitters o2 = emitters running_a ∧
    watches o2 = watches running_a.
Proof.
  split; [decide_by_vm|]. split; [decide_by_vm|].
  refine (unschedule_undoes_schedule 3 (PStr "/tmp/b") false None running_a
            (proj1 running_a_ok) (proj2 running_a_ok) _ _ _).
  - decide_by_vm.
  - decide_by_vm.
  - intros _. decide_by_vm.
Defined.

(** X4. [schedule] and [unschedule] of a watch touch that watch only: the
    handlers, the Producer and the membership in the Active Watch Set of every
    other watch are as before, however the call ended. *)
Theorem other_watches_are_untouched h p r f w w' o :
  emitters_are_registry o →
  dom (emitter_for_watch o) ⊆ watches o →
  (w' ≠ ObservedWatch_init p r f →
   handlers (state_of (schedule h p r f o)) !! w' = handlers o !! w' ∧
   emitter_for_watch (state_of (schedule h p r f o)) !! w' = emitter_for_watch o !! w' ∧
   (w' ∈ watches (state_of (schedule h p r f o)) ↔ w' ∈ watches o)) ∧
  (w' ≠ w →
   handlers (state_of (unschedule w o)) !! w' = handlers o !! w' ∧
   emitter_for_watch (state_of (unschedule w o)) !! w' = emitter_for_watch o !! w' ∧
   (w' ∈ watches (state_of (unschedule w o)) ↔ w' ∈ watches o)).
Proof.
  intros Hinv Hsub. split; intros Hne.
  - rewrite schedule_run. simpl.
    destruct (emitter_for_watch o !! ObservedWatch_init p r f) eqn:E; simpl.
    + unfold add_handler. rewrite lookup_insert_ne by done. split; [done|].
      split; [done|]. set_solver.
    + destruct (alive o); [destruct (starts _ _)|]; simpl; unfold add_handler;
        rewrite ?lookup_insert_ne by done; (split; [done|]); (split; [done|]);
        set_solver.
  - rewrite unschedule_run by done.
    destruct (emitter_for_watch o !! w) eqn:E; simpl; [|done].
    destruct (handlers o !! w) eqn:Eh; simpl; [|done].
    rewrite !lookup_delete_ne by done. split; [done|]. split; [done|]. set_solver.
Qed.

Lemma schedule_state_of_run_op c o :
  state_of (run_op (OpSchedule c) o)
    = state_of (schedule (call_handler c) (call_path c) (call_recursive c)
                  (call_filter c) o).
Proof. rewrite run_op_schedule. by destruct (schedule _ _ _ _ o). Qed.

Lemma a_and_b_ok :
  emitters_are_registry a_and_b ∧ dom (emitter_for_watch a_and_b) ⊆ watches a_and_b.
Proof.
  destruct (first_schedule_ok starting 1 1 (PStr "/tmp/a") false None) as [Hinv Heq].
  assert (dom (emitter_for_watch (state_of first_schedule))
            ⊆ watches (state_of first_schedule)) as Hsub.
  { unfold watches_are_registry in Heq. unfold first_schedule. by rewrite Heq. }
  destruct (run_op_keeps_registry (OpSchedule (MkCall 3 (PStr "/tmp/b") false None))
              (state_of first_schedule) Hinv Hsub) as (Hinv' & Hsub' & _).
  rewrite schedule_state_of_run_op in Hinv', Hsub'.
  split; [exact Hinv'|exact Hsub'].
Qed.

Lemma other_watches_are_untouched_witness :
  handlers a_and_b !! watch_b = Some {[3]} ∧
  is_Some (emitter_for_watch a_and_b !! watch_b) ∧
  watch_b ∈ watches a_and_b ∧
  returned (schedule 2 (PStr "/tmp/a") false None a_and_b) = true ∧
  returned (unschedule watch_a a_and_b) = true ∧
  (handlers (state_of (schedule 2 (PStr "/tmp/a") false None a_and_b)) !! watch_b
     = handlers a_and_b !! watch_b ∧
   emitter_for_watch (state_of (schedule 2 (PStr "/tmp/a") false None a_and_b))
     !! watch_b = emitter_for_watch a_and_b !! watch_b ∧
   (watch_b ∈ watches (state_of (schedule 2 (PStr "/tmp/a") false None a_and_b))
    ↔ watch_b ∈ watches a_and_b)) ∧
  (handlers (state_of (unschedule watch_a a_and_b)) !! watch_b
     = handlers a_and_b !! watch_b ∧
   emitter_for_watch (state_of (unschedule watch_a a_and_b)) !! watch_b
     = emitter_for_watch a_and_b !! watch_b ∧
   (watch_b ∈ watches (state_of (unschedule watch_a a_and_b))
    ↔ watch_b ∈ watches a_and_b)).
Proof.
  split; [decide_by_vm|]. split; [decide_by_vm|]. split; [decide_by_vm|].
  split; [exact (eq_refl true
                   <: returned (schedule 2 (PStr "/tmp/a") false None a_and_b) = true)|].
  split; [exact (eq_refl true <: returned (unschedule watch_a a_and_b) = true)|].
  destruct (other_watches_are_untouched 2 (PStr "/tmp/a") false None watch_a watch_b
              a_and_b (proj1 a_and_b_ok) (proj2 a_and_b_ok)) as [Hs Hu].
  split; [apply Hs|apply Hu]; decide_by_vm.
Defined.

(** ** Events of a watch without handlers *)

(** X5. An event that is still on the queue when its watch is unscheduled
    reaches no handler: after an [unschedule] that returned, [dispatch_events]
    on an entry of that watch invokes nobody, whatever the handlers would do,
    and marks the entry done; the observer changes by the queue alone. *)
Theorem event_of_unscheduled_watch_is_dropped dispatch w o o1 ev q q' :
  emitters_are_registry o →
  dom (emitter_for_watch o) ⊆ watches o →
  unschedule w o = Ok tt o1 →
  EventQueue.get true None (event_queue o) = EventQueue.Got (event_entry ev w) q →
  EventQueue.task_done q = Some q' →
  handlers o1 !! w = None ∧
  dispatch_events dispatch o1 = Ok [] (set_event_queue q' o1).
Proof.
  intros Hinv Hsub Hu Hg Ht.
  rewrite unschedule_run in Hu by done.
  destruct (emitter_for_watch o !! w); [|done].
  destruct (handlers o !! w); [|done].
  injection Hu as <-.
  assert (∀ o', handlers o' !! w = None →
                EventQueue.get true None (event_queue o')
                  = EventQueue.Got (event_entry ev w) q →
                dispatch_events dispatch o' = Ok [] (set_event_queue q' o')) as Hdrop.
  { intros o' Hh Hg'. rewrite (dispatch_events_entry dispatch ev w q) by done.
    unfold handlers_get. simpl. rewrite Hh. simpl. rewrite elements_empty. simpl.
    unfold ret. simpl. by rewrite Ht. }
  split; [apply lookup_delete_eq|].
  apply Hdrop; [apply lookup_delete_eq|exact Hg].
Qed.

Lemma set_event_queue_keeps_registry q o :
  emitters_are_registry o → watches_are_registry o →
  emitters_are_registry (set_event_queue q o) ∧
  dom (emitter_for_watch (set_event_queue q o)) ⊆ watches (set_event_queue q o).
Proof.
  unfold watches_are_registry. intros Hinv Heq. split; [exact Hinv|]. simpl.
  by rewrite Heq.
Qed.

Lemma pending_a_ok :
  emitters_are_registry pending_a ∧
  dom (emitter_for_watch pending_a) ⊆ watches pending_a.
Proof.
  apply set_event_queue_keeps_registry; apply first_schedule_ok.
Qed.

Lemma event_of_unscheduled_watch_witness :
  handlers (state_of (unschedule watch_a pending_a)) !! watch_a = None ∧
  dispatch_events C1_dispatch (state_of (unschedule watch_a pending_a))
    = Ok [] (set_event_queue
               (EventQueue.MkQueue [] (Some (event_entry modified_x watch_a)) 0 0)
               (state_of (unschedule watch_a pending_a))).
Proof.
  exact (event_of_unscheduled_watch_is_dropped C1_dispatch watch_a pending_a
           (state_of (unschedule watch_a pending_a)) modified_x
           (EventQueue.MkQueue [] (Some (event_entry modified_x watch_a)) 0 1)
           (EventQueue.MkQueue [] (Some (event_entry modified_x watch_a)) 0 0)
           (proj1 pending_a_ok) (proj2 pending_a_ok)
           (returned_eq tt (unschedule watch_a pending_a)
              (eq_refl true <: returned (unschedule watch_a pending_a) = true))
           eq_refl eq_refl).
Defined.

(** ** A handler that raises *)

(** X6. A handler that raises ends the dispatch: when the handlers before
    [h] in the snapshot have run and [h], still registered, raises,
    [dispatch_events] raises the same exception and leaves the observer as [h]
    left it, so the handlers after [h] are not invoked and the entry is not
    marked done.  The run loop ends with the exception, unless the exception
    is [queue.Empty], which the loop takes for an empty read: it goes on. *)
Theorem raising_handler_ends_dispatch dispatch ev w q o pre h post cpre oh e oa :
  EventQueue.get true None (event_queue o) = EventQueue.Got (event_entry ev w) q →
  elements (handlers_get w (set_event_queue q o)) = pre ++ h :: post →
  dispatch_loop dispatch ev w pre (set_event_queue q o) = Ok cpre oh →
  h ∈ handlers_get w oh →
  dispatch h ev oh = Raise e oa →
  dispatch_events dispatch o = Raise e oa ∧
  (should_keep_running o = true → e ≠ QueueEmpty →
   ∀ fuel, run dispatch (S fuel) o = Some (Raise e oa)) ∧
  (should_keep_running o = true → e = QueueEmpty →
   ∀ fuel, run dispatch (S fuel) o = run dispatch fuel oa).
Proof.
  intros Hg Hsnap Hpre Hin Hraise.
  assert (dispatch_events dispatch o = Raise e oa) as Hd.
  { rewrite (dispatch_events_entry dispatch ev w q) by done.
    rewrite Hsnap, dispatch_loop_app, Hpre, dispatch_loop_cons.
    by rewrite decide_True, Hraise by done. }
  split; [exact Hd|]. split.
  - intros Hrun Hne fuel. simpl. rewrite Hrun, Hd. by destruct e.
  - intros Hrun -> fuel. simpl. by rewrite Hrun, Hd.
Qed.

Lemma raising_handler_witness :
  dispatch_events raising_dispatch C1_observer
    = Raise HandlerError (set_event_queue C1_rest C1_observer) ∧
  ∀ fuel, run raising_dispatch (S fuel) C1_observer
          = Some (Raise HandlerError (set_event_queue C1_rest C1_observer)).
Proof.
  assert (elements (handlers_get watch_a (set_event_queue C1_rest C1_observer))
          = [] ++ 2 :: [1]) as Hsnap by decide_by_vm.
  assert (2 ∈ handlers_get watch_a (set_event_queue C1_rest C1_observer)) as Hin
    by decide_by_vm.
  destruct (raising_handler_ends_dispatch raising_dispatch modified_x watch_a C1_rest
              C1_observer [] 2 [1] [] (set_event_queue C1_rest C1_observer)
              HandlerError (set_event_queue C1_rest C1_observer)
              eq_refl Hsnap eq_refl Hin eq_refl) as (Hd & Hrun & _).
  split; [exact Hd|]. apply Hrun; [decide_by_vm|discriminate].
Defined.

(** ** The calls on the emitter threads *)

Lemma thread_calls_foldl (mk : nat → ThreadCall) l : ∀ o,
  thread_calls (foldl (λ o' em, log_call (mk (em_id em)) o') o l)
    = thread_calls o ++ calls_on mk l ∧
  same_registries o (foldl (λ o' em, log_call (mk (em_id em)) o') o l) ∧
  event_queue (foldl (λ o' em, log_call (mk (em_id em)) o') o l) = event_queue o ∧
  alive (foldl (λ o' em, log_call (mk (em_id em)) o') o l) = alive o ∧
  timeout (foldl (λ o' em, log_call (mk (em_id em)) o') o l) = timeout o.
Proof.
  induction l as [|em l IH]; intros o; simpl.
  - rewrite app_nil_r. split; [done|]. split; [apply same_registries_refl|done].
  - destruct (IH (log_call (mk (em_id em)) o)) as (-> & Hs & -> & -> & ->). simpl.
    rewrite <- app_assoc. split; [done|]. split; [|done].
    eapply same_registries_trans; [|exact Hs]. by repeat split.
Qed.

Lemma for_each_log_run (mk : nat → ThreadCall) l : ∀ o,
  for_each l (λ em, modify (log_call (mk (em_id em)))) o
    = Ok tt (foldl (λ o' em, log_call (mk (em_id em)) o') o l).
Proof.
  induction l as [|em l IH]; intros o; [done|].
  simpl. unfold bind at 1. unfold modify at 1. apply IH.
Qed.

Lemma stop_then_join_log o :
  let o1 := foldl (λ o' em, log_call (ThreadStop (em_id em)) o') o (elements (emitters o)) in
  let o2 := foldl (λ o' em, log_call (ThreadJoin (em_id em)) o') o1 (elements (emitters o1)) in
  thread_calls o2 = thread_calls o
                    ++ calls_on ThreadStop (elements (emitters o))
                    ++ calls_on ThreadJoin (elements (emitters o)) ∧
  handlers o2 = handlers o ∧ event_queue o2 = event_queue o ∧ timeout o2 = timeout o.
Proof.
  intros o1 o2.
  destruct (thread_calls_foldl ThreadStop (elements (emitters o)) o)
    as (Hc1 & (_ & He1 & _ & Hh1 & _) & Hq1 & _ & Ht1).
  destruct (thread_calls_foldl ThreadJoin (elements (emitters o1)) o1)
    as (Hc2 & (_ & _ & _ & Hh2 & _) & Hq2 & _ & Ht2).
  unfold o2. rewrite Hc2, Hh2, Hq2, Ht2. unfold o1 at 1 3 4 5.
  rewrite Hc1, Hh1, Hq1, Ht1.
  fold o1. unfold o1 at 1. rewrite He1. by rewrite <- app_assoc.
Qed.

(** X7. [unschedule_all] never raises.  It stops every emitter before it
    joins any: the calls it makes on the emitter threads are one [stop] per
    emitter, then one [join] per emitter, in the order in which the set of
    emitters is iterated.  Afterwards the Handler Registry, the Producer
    Registry, the set of emitters and the Active Watch Set are empty; the
    queue is untouched. *)
Theorem unschedule_all_stops_all_then_joins_all o :
  ∃ o', unschedule_all o = Ok tt o' ∧
        thread_calls o' = thread_calls o
                          ++ calls_on ThreadStop (elements (emitters o))
                          ++ calls_on ThreadJoin (elements (emitters o)) ∧
        handlers o' = ∅ ∧ emitter_for_watch o' = ∅ ∧ emitters o' = ∅ ∧
        watches o' = ∅ ∧ event_queue o' = event_queue o.
Proof.
  unfold unschedule_all, _clear_emitters, emitter_stop, emitter_join.
  unfold bind at 1. unfold modify at 1. unfold bind at 1. unfold bind at 1.
  unfold bind at 1. unfold gets at 1. rewrite for_each_log_run.
  unfold bind at 1. unfold bind at 1. unfold gets at 1. rewrite for_each_log_run.
  run_obs. eexists. split; [reflexivity|]. simpl.
  destruct (stop_then_join_log (set_handlers ∅ o)) as (Hc & Hh & Hq & _).
  simpl in Hc, Hh, Hq. by rewrite Hc, Hh, Hq.
Qed.

(** Two emitters: both are stopped before either is joined. *)
Example unschedule_all_two_watches :
  thread_calls (state_of (unschedule_all two_watches))
    = [ThreadStop 0; ThreadStop 1; ThreadJoin 0; ThreadJoin 1].
Proof. vm_compute. reflexivity. Qed.

Lemma for_each_app {A} (body : A → M unit) l1 l2 : ∀ o,
  for_each (l1 ++ l2) body o =
    match for_each l1 body o with
    | Ok _ o1 => for_each l2 body o1
    | Raise e o1 => Raise e o1
    | Blocked o1 => Blocked o1
    end.
Proof.
  induction l1 as [|x l1 IH]; intros o; [done|].
  simpl. unfold bind. destruct (body x o); [apply IH|done..].
Qed.

Lemma start_loop_all l : ∀ o,
  (∀ em, em ∈ l → emitter_for_watch o !! em_watch em = Some em ∧ em ∈ emitters o ∧
                  starts (emitter_class o) (em_watch em) = true) →
  for_each l start_or_remove o
    = Ok tt (foldl (λ o' em, log_call (ThreadStart (em_id em)) o') o l).
Proof.
  induction l as [|em l IH]; intros o Hl; [done|].
  destruct (Hl em) as (Hem & Hin & Hs); [apply list_elem_of_here|].
  assert (for_each (em :: l) start_or_remove o =
          match start_or_remove em o with
          | Ok _ o1 => for_each l start_or_remove o1
          | Raise e o1 => Raise e o1
          | Blocked o1 => Blocked o1
          end) as -> by reflexivity.
  rewrite start_or_remove_run, Hs by done. simpl. apply IH.
  intros em' Hin'. apply (Hl em'). by apply list_elem_of_further.
Qed.

(** X8. [start] starts the emitters one after the other, in the order in
    which the set of emitters is iterated, and then the consumer thread.  When
    every emitter starts, each one is started once, the registries are
    untouched and the engine is alive.  When an emitter fails to start, the
    emitters before it were started, that emitter is removed from the Producer
    Registry and from the set of emitters, stopped and joined, the emitters
    after it are not started, the consumer thread is not started, and the
    failure is raised. *)
Theorem start_stops_at_first_failure o pre post :
  emitters_are_registry o →
  elements (emitters o) = pre ++ post →
  (∀ em, em ∈ pre → starts (emitter_class o) (em_watch em) = true) →
  (post = [] →
   ∃ o', start o = Ok tt o' ∧
         thread_calls o' = thread_calls o ++ calls_on ThreadStart pre ∧
         alive o' = true ∧ same_registries o o') ∧
  (∀ em post', post = em :: post' →
   starts (emitter_class o) (em_watch em) = false →
   ∃ o', start o = Raise StartError o' ∧
         thread_calls o' = thread_calls o ++ calls_on ThreadStart pre
                           ++ [ThreadStop (em_id em); ThreadJoin (em_id em)] ∧
         alive o' = alive o ∧
         emitter_for_watch o' = delete (em_watch em) (emitter_for_watch o) ∧
         emitters o' = emitters o ∖ {[em]}).
Proof.
  intros [H1 H2] Hel Hpre.
  assert (start o =
          match for_each (elements (emitters o)) start_or_remove o with
          | Ok _ o1 => Ok tt (set_alive true o1)
          | Raise e o1 => Raise e o1
          | Blocked o1 => Blocked o1
          end) as -> by reflexivity.
  assert (∀ em, em ∈ pre ++ post →
                emitter_for_watch o !! em_watch em = Some em ∧ em ∈ emitters o) as Hreg.
  { intros em Hin. rewrite <- Hel in Hin. apply elem_of_elements in Hin.
    split; [by apply H2|done]. }
  destruct (thread_calls_foldl ThreadStart pre o) as (Hc & Hs & Hq & Ha & _).
  split.
  - intros ->. rewrite app_nil_r in Hel, Hreg. rewrite Hel, start_loop_all.
    + eexists. split; [reflexivity|]. simpl. split; [done|]. split; [done|].
      destruct Hs as (? & ? & ? & ? & ?). by repeat split.
    + intros em Hin. destruct (Hreg em Hin). auto.
  - intros em post' -> Hfail. rewrite Hel.
    rewrite for_each_app, start_loop_all.
    2:{ intros em' Hin. destruct (Hreg em') as [? ?]; [apply elem_of_app; by left|].
        auto. }
    set (o1 := foldl _ o pre) in *.
    destruct Hs as (He & Hes & _ & _ & Hcls).
    assert (for_each (em :: post') start_or_remove o1 =
            match start_or_remove em o1 with
            | Ok _ o2 => for_each post' start_or_remove o2
            | Raise e o2 => Raise e o2
            | Blocked o2 => Blocked o2
            end) as -> by reflexivity.
    destruct (Hreg em) as [Hem Hin];
      [apply elem_of_app; right; apply list_elem_of_here|].
    rewrite start_or_remove_run by (by rewrite ?He, ?Hes).
    rewrite Hcls, Hfail. eexists. split; [reflexivity|]. simpl.
    rewrite Hc, Ha, He, Hes. by rewrite <- !app_assoc.
Qed.

Lemma start_stops_at_first_failure_witness :
  ∃ o', start C5_observer = Raise StartError o' ∧
        thread_calls o' = thread_calls C5_observer ++ calls_on ThreadStart []
                          ++ [ThreadStop 0; ThreadJoin 0] ∧
        alive o' = alive C5_observer ∧
        emitter_for_watch o' = delete watch_a (emitter_for_watch C5_observer) ∧
        emitters o' = emitters C5_observer ∖ {[EventEmitter_init 0 watch_a 1 None]}.
Proof.
  destruct (start_stops_at_first_failure C5_observer [] (elements (emitters C5_observer))
              (proj1 C5_observer_ok)
              (eq_sym (app_nil_l (elements (emitters C5_observer))))
              (λ em Hin, False_ind _ (not_elem_of_nil em Hin)))
    as [_ Hfail].
  apply (Hfail (EventEmitter_init 0 watch_a 1 None) []).
  - decide_by_vm.
  - decide_by_vm.
Defined.

(** ** Handlers added and removed directly *)

(** X9. [remove_handler_for_watch] undoes [add_handler_for_watch]: for a
    handler that is not registered for the watch, the two calls return and
    the watch has the handlers it had; the Handler Registry is as before when
    the watch had an entry, and holds an empty set for the watch when it had
    none.  Neither call touches the Producer Registry, the emitters or the
    Active Watch Set: [add_handler_for_watch] builds no Producer, also for a
    watch that was never scheduled. *)
Theorem remove_handler_undoes_add h w o :
  h ∉ handlers_get w o →
  ∃ o1 o2,
    add_handler_for_watch h w o = Ok tt o1 ∧
    remove_handler_for_watch h w o1 = Ok tt o2 ∧
    handlers_get w o1 = {[h]} ∪ handlers_get w o ∧
    handlers_get w o2 = handlers_get w o ∧
    (is_Some (handlers o !! w) → handlers o2 = handlers o) ∧
    (handlers o !! w = None → handlers o2 = <[w := ∅]> (handlers o)) ∧
    emitter_for_watch o1 = emitter_for_watch o ∧ emitter_for_watch o2 = emitter_for_watch o ∧
    emitters o2 = emitters o ∧ watches o2 = watches o.
Proof.
  intros Hnot. unfold add_handler_for_watch. rewrite add_handler_run.
  eexists _, _. split; [reflexivity|].
  unfold remove_handler_for_watch. run_obs. unfold add_handler at 1.
  rewrite lookup_insert_eq. fold (handlers_get w o).
  rewrite decide_True by set_solver. split; [reflexivity|]. simpl.
  unfold handlers_get at 1 3. simpl. unfold add_handler.
  rewrite insert_insert_eq, !lookup_insert_eq. fold (handlers_get w o). simpl.
  assert (({[h]} ∪ handlers_get w o) ∖ {[h]} = handlers_get w o) as -> by set_solver.
  split; [done|]. split; [done|]. split; [|split; [|done]].
  - intros [s Hs]. apply insert_id. unfold handlers_get. by rewrite Hs.
  - intros Hn. unfold handlers_get. by rewrite Hn.
Qed.

Lemma remove_handler_undoes_add_witness :
  ∃ o1 o2,
    add_handler_for_watch 7 watch_b two_watches = Ok tt o1 ∧
    remove_handler_for_watch 7 watch_b o1 = Ok tt o2 ∧
    handlers_get watch_b o1 = {[7]} ∪ handlers_get watch_b two_watches ∧
    handlers_get watch_b o2 = handlers_get watch_b two_watches ∧
    (is_Some (handlers two_watches !! watch_b) → handlers o2 = handlers two_watches) ∧
    (handlers two_watches !! watch_b = None →
     handlers o2 = <[watch_b := ∅]> (handlers two_watches)) ∧
    emitter_for_watch o1 = emitter_for_watch two_watches ∧
    emitter_for_watch o2 = emitter_for_watch two_watches ∧
    emitters o2 = emitters two_watches ∧ watches o2 = watches two_watches.
Proof.
  apply (remove_handler_undoes_add 7 watch_b two_watches). decide_by_vm.
Defined.

(** X10. Removing the last handler of a watch does not unschedule it: the
    call returns, the watch keeps its Producer and its place in the Active
    Watch Set, and its entry in the Handler Registry becomes the empty set.
    An event of the watch is then taken from the queue, reaches no handler and
    is marked done. *)
Theorem last_handler_removed_watch_stays dispatch h w o ev q q' :
  handlers o !! w = Some {[h]} →
  EventQueue.get true None (event_queue o) = EventQueue.Got (event_entry ev w) q →
  EventQueue.task_done q = Some q' →
  ∃ o1, remove_handler_for_watch h w o = Ok tt o1 ∧
        emitter_for_watch o1 = emitter_for_watch o ∧
        emitters o1 = emitters o ∧
        watches o1 = watches o ∧
        handlers o1 !! w = Some ∅ ∧
        dispatch_events dispatch o1 = Ok [] (set_event_queue q' o1).
Proof.
  intros Hh Hg Ht. unfold remove_handler_for_watch. run_obs. rewrite Hh. simpl.
  rewrite decide_True by set_solver. eexists. split; [reflexivity|]. simpl.
  assert (({[h]} : gset Handler) ∖ {[h]} = ∅) as -> by set_solver.
  rewrite lookup_insert_eq. repeat (split; [done|]).
  rewrite (dispatch_events_entry dispatch ev w q) by done.
  unfold handlers_get. simpl. rewrite lookup_insert_eq. simpl.
  rewrite elements_empty. simpl. unfold ret. simpl. by rewrite Ht.
Qed.

Lemma last_handler_removed_witness :
  ∃ o1, remove_handler_for_watch 1 watch_a pending_a = Ok tt o1 ∧
        emitter_for_watch o1 = emitter_for_watch pending_a ∧
        emitters o1 = emitters pending_a ∧
        watches o1 = watches pending_a ∧
        handlers o1 !! watch_a = Some ∅ ∧
        dispatch_events C1_dispatch o1
          = Ok [] (set_event_queue
                     (EventQueue.MkQueue [] (Some (event_entry modified_x watch_a)) 0 0) o1).
Proof.
  refine (last_handler_removed_watch_stays C1_dispatch 1 watch_a pending_a modified_x
            (EventQueue.MkQueue [] (Some (event_entry modified_x watch_a)) 0 1)
            (EventQueue.MkQueue [] (Some (event_entry modified_x watch_a)) 0 0)
            _ eq_refl eq_refl).
  decide_by_vm.
Defined.

(** ** The filter of an emitter: [None] and the empty filter *)

Lemma empty_filter_discards id w tm ev q :
  queue_event (EventEmitter_init id w tm (Some [])) ev q = q.
Proof.
  unfold queue_event, any_isinstance. simpl. by rewrite elements_empty.
Qed.

(** X11. The empty filter is not read as "no filter".  The Producer that
    [schedule] builds for a new watch with an empty filter discards every
    event: nothing it is given reaches the queue.  The Producer built for a
    new watch without filter puts every event on the queue, paired with the
    watch. *)
Theorem empty_filter_schedules_silent_producer h p r o :
  emitter_for_watch o !! ObservedWatch_init p r (Some []) = None →
  emitter_for_watch o !! ObservedWatch_init p r None = None →
  (∀ w o1, schedule h p r (Some []) o = Ok w o1 →
     ∃ em, emitter_for_watch o1 !! w = Some em ∧
           ∀ ev q, queue_event em ev q = q) ∧
  (∀ w o1, schedule h p r None o = Ok w o1 →
     ∃ em, emitter_for_watch o1 !! w = Some em ∧
           ∀ ev q, queue_event em ev q = EventQueue.put (event_entry ev w) q).
Proof.
  intros He Hn. split; intros w o1 Hs; apply schedule_ok in Hs as (-> & _ & _ & Hreg).
  - rewrite He in Hreg. simpl in Hreg. destruct Hreg as [-> _].
    eexists. rewrite lookup_insert_eq. split; [reflexivity|].
    intros ev q. apply empty_filter_discards.
  - rewrite Hn in Hreg. simpl in Hreg. destruct Hreg as [-> _].
    eexists. rewrite lookup_insert_eq. split; [reflexivity|]. done.
Qed.

Lemma empty_filter_witness :
  (∃ em, emitter_for_watch
           (state_of (schedule 1 (PStr "/tmp/a") false (Some [])
                        (BaseObserver_init starting 1)))
           !! ObservedWatch_init (PStr "/tmp/a") false (Some []) = Some em ∧
         ∀ ev q, queue_event em ev q = q) ∧
  (∃ em, emitter_for_watch (state_of first_schedule) !! watch_a = Some em ∧
         ∀ ev q, queue_event em ev q = EventQueue.put (event_entry ev watch_a) q).
Proof.
  destruct (empty_filter_schedules_silent_producer 1 (PStr "/tmp/a") false
              (BaseObserver_init starting 1) eq_refl eq_refl) as [He Hn].
  split.
  - apply He. apply schedule_returns_when_idle. reflexivity.
  - apply Hn. apply (schedule_returns_when_idle 1 (PStr "/tmp/a") false None). reflexivity.
Defined.

(** ** How the Producers are configured *)

Lemma start_loop_keeps_timeout l : ∀ o,
  (∀ em, em ∈ l → emitter_for_watch o !! em_watch em = Some em ∧ em ∈ emitters o) →
  timeout (state_of (for_each l start_or_remove o)) = timeout o.
Proof.
  induction l as [|em l IH]; intros o Hl; [done|].
  destruct (Hl em) as [Hem Hin]; [apply list_elem_of_here|].
  assert (for_each (em :: l) start_or_remove o =
          match start_or_remove em o with
          | Ok _ o1 => for_each l start_or_remove o1
          | Raise e o1 => Raise e o1
          | Blocked o1 => Blocked o1
          end) as -> by reflexivity.
  rewrite start_or_remove_run by done.
  destruct (starts (emitter_class o) (em_watch em)); [|done].
  rewrite IH; [done|]. intros em' Hin'. apply Hl. by apply list_elem_of_further.
Qed.

Lemma run_op_keeps_timeout op o :
  emitters_are_registry o →
  dom (emitter_for_watch o) ⊆ watches o →
  timeout (state_of (run_op op o)) = timeout o.
Proof.
  intros Hinv Hsub. destruct op as [c|w| |].
  - rewrite run_op_schedule, schedule_run. simpl.
    destruct (emitter_for_watch o !! _); [done|].
    destruct (alive o); [destruct (starts _ _)|]; done.
  - simpl. rewrite unschedule_run by done.
    destruct (emitter_for_watch o !! w); [|done]. by destruct (handlers o !! w).
  - simpl. unfold unschedule_all, _clear_emitters, emitter_stop, emitter_join.
    unfold bind at 1. unfold modify at 1. unfold bind at 1. unfold bind at 1.
    unfold bind at 1. unfold gets at 1. rewrite for_each_log_run.
    unfold bind at 1. unfold bind at 1. unfold gets at 1. rewrite for_each_log_run.
    run_obs.
    destruct (stop_then_join_log (set_handlers ∅ o)) as (_ & _ & _ & Ht).
    simpl in Ht. exact Ht.
  - simpl.
    assert (start o =
            match for_each (elements (emitters o)) start_or_remove o with
            | Ok _ o1 => Ok tt (set_alive true o1)
            | Raise e o1 => Raise e o1
            | Blocked o1 => Blocked o1
            end) as -> by reflexivity.
    rewrite <- (start_loop_keeps_timeout (elements (emitters o)) o).
    + by destruct (for_each _ _ _).
    + intros em Hin%elem_of_elements. destruct Hinv as [_ H2]. split; [by apply H2|done].
Qed.

(** [schedule_iterable] of a collection is [schedule] of its members. *)
Lemma schedule_iterable_collection h p r f o :
  schedule_iterable h p r (Collection <$> f) o = schedule h p r f o.
Proof. by destruct f. Qed.

(** [schedule_iterable] in one piece: the observer it leaves, case by case. *)
Lemma schedule_iterable_run h p r it o :
  let w := ObservedWatch_init p r (first_read it) in
  let o1 := set_handlers (add_handler h w (handlers o)) o in
  schedule_iterable h p r it o =
    match emitter_for_watch o !! w with
    | Some _ => Ok w (set_watches ({[w]} ∪ watches o) o1)
    | None =>
        let em := EventEmitter_init (next_id o) w (timeout o) (second_read it) in
        let o2 := set_next_id (S (next_id o)) o1 in
        let reg o3 := set_watches ({[w]} ∪ watches o)
                        (set_emitters ({[em]} ∪ emitters o)
                           (set_emitter_for_watch (<[w := em]> (emitter_for_watch o)) o3)) in
        if alive o then
          if starts (emitter_class o) w
          then Ok w (reg (log_call (ThreadStart (next_id o)) o2))
          else Raise StartError o2
        else Ok w (reg o2)
    end.
Proof.
  intros w o1. unfold schedule_iterable. fold w. unfold bind at 1.
  rewrite add_handler_run. fold o1.
  unfold _add_emitter, emitter_start, is_alive. run_obs.
  destruct (emitter_for_watch o !! w) eqn:E; simpl; [reflexivity|].
  destruct (alive o); simpl; [|reflexivity].
  destruct (starts (emitter_class o) w); simpl; reflexivity.
Qed.

(** What [schedule_iterable] does to the registries, however it ends: it
    leaves the Producer Registry and the emitters alone, or files one new
    emitter, built from the second reading of the filter, under the watch. *)
Lemma schedule_iterable_registry h p r it o :
  let w := ObservedWatch_init p r (first_read it) in
  let o' := state_of (schedule_iterable h p r it o) in
  timeout o' = timeout o ∧
  ((emitter_for_watch o' = emitter_for_watch o ∧ emitters o' = emitters o ∧
    (watches o' = watches o ∨
     (w ∈ dom (emitter_for_watch o) ∧ watches o' = {[w]} ∪ watches o))) ∨
   (emitter_for_watch o !! w = None ∧
    emitter_for_watch o' =
      <[w := EventEmitter_init (next_id o) w (timeout o) (second_read it)]>
        (emitter_for_watch o) ∧
    emitters o' =
      {[EventEmitter_init (next_id o) w (timeout o) (second_read it)]} ∪ emitters o ∧
    watches o' = {[w]} ∪ watches o)).
Proof.
  intros w o'. unfold o'. rewrite schedule_iterable_run. simpl. fold w.
  destruct (emitter_for_watch o !! w) eqn:E; simpl.
  - split; [done|]. left. split; [done|]. split; [done|]. right.
    split; [|done]. apply elem_of_dom. eauto.
  - destruct (alive o); [destruct (starts _ _)|]; simpl; (split; [done|]).
    + right. done.
    + left. split; [done|]. split; [done|]. by left.
    + right. done.
Qed.

Lemma insert_keeps_emitters o o' w em :
  emitters_are_registry o →
  emitter_for_watch o !! w = None →
  em_watch em = w →
  emitter_for_watch o' = <[w := em]> (emitter_for_watch o) →
  emitters o' = {[em]} ∪ emitters o →
  emitters_are_registry o'.
Proof.
  intros [H1 H2] Hn Hw He Hs. unfold emitters_are_registry. rewrite He, Hs. split.
  - intros w' em'. destruct (decide (w = w')) as [<-|Hne].
    + rewrite lookup_insert_eq. intros [= <-]. split; [done|].
      apply elem_of_union. left. by apply elem_of_singleton.
    + rewrite lookup_insert_ne by done. intros Hl.
      destruct (H1 _ _ Hl). split; [done|]. apply elem_of_union. by right.
  - intros em' [->%elem_of_singleton|Hin]%elem_of_union.
    + by rewrite Hw, lookup_insert_eq.
    + specialize (H2 _ Hin). rewrite lookup_insert_ne; [done|].
      intros Heq. rewrite <- Heq in H2. congruence.
Qed.

Lemma run_call_schedule h p r it o :
  state_of (run_call (CallSchedule h p r it) o)
    = state_of (schedule_iterable h p r it o).
Proof.
  unfold run_call, bind. by destruct (schedule_iterable h p r it o).
Qed.

(** One call, however it ends, keeps the emitters those of the Producer
    Registry, the registered descriptors inside the Active Watch Set, and the
    timeout of the engine. *)
Lemma run_call_keeps_registry c o :
  emitters_are_registry o →
  dom (emitter_for_watch o) ⊆ watches o →
  emitters_are_registry (state_of (run_call c o)) ∧
  dom (emitter_for_watch (state_of (run_call c o))) ⊆ watches (state_of (run_call c o)) ∧
  timeout (state_of (run_call c o)) = timeout o.
Proof.
  intros Hinv Hsub. destruct c as [h p r it|w| |].
  - rewrite run_call_schedule.
    destruct (schedule_iterable_registry h p r it o)
      as (Ht & [(He & Hs & Hw)|(Hn & He & Hs & Hw)]).
    + split; [|split; [|done]].
      * unfold emitters_are_registry. rewrite He, Hs. exact Hinv.
      * rewrite He. destruct Hw as [->|[_ ->]]; set_solver.
    + split; [|split; [|done]].
      * eapply (insert_keeps_emitters o _ _ _ Hinv Hn); [|exact He|exact Hs]. done.
      * rewrite He, Hw, dom_insert_L. set_solver.
  - destruct (run_op_keeps_registry (OpUnschedule w) o Hinv Hsub) as (? & ? & _).
    split; [done|]. split; [done|]. by apply (run_op_keeps_timeout (OpUnschedule w)).
  - destruct (run_op_keeps_registry OpUnscheduleAll o Hinv Hsub) as (? & ? & _).
    split; [done|]. split; [done|]. by apply (run_op_keeps_timeout OpUnscheduleAll).
  - destruct (run_op_keeps_registry OpStart o Hinv Hsub) as (? & ? & _).
    split; [done|]. split; [done|]. by apply (run_op_keeps_timeout OpStart).
Qed.

(** A call that is not a [schedule] adds nothing to the Producer Registry. *)
Lemma removal_adds_no_emitter c o w em :
  emitters_are_registry o →
  dom (emitter_for_watch o) ⊆ watches o →
  (∀ h p r it, c ≠ CallSchedule h p r it) →
  emitter_for_watch (state_of (run_call c o)) !! w = Some em →
  emitter_for_watch o !! w = Some em.
Proof.
  intros Hinv Hsub Hc. destruct c as [h p r it|w0| |]; [by destruct (Hc h p r it)|..];
    simpl.
  - rewrite unschedule_run by done.
    destruct (emitter_for_watch o !! w0) eqn:E; simpl; [|done].
    destruct (handlers o !! w0); simpl; [|done].
    by intros [_ Hl]%lookup_delete_Some.
  - destruct (unschedule_all_run o) as (o' & -> & He & _). simpl.
    by rewrite He, lookup_empty.
  - destruct (start_run o Hinv) as
      [(o' & -> & He & _)|(em' & o' & _ & -> & He & _)]; simpl; rewrite He; [done|].
    by intros [_ Hl]%lookup_delete_Some.
Qed.

(** One call keeps a relation between the registered emitters and their
    watches, when the emitter that a [schedule] builds stands in it. *)
Lemma run_call_keeps_all P c o :
  emitters_are_registry o →
  dom (emitter_for_watch o) ⊆ watches o →
  (∀ h p r it, c = CallSchedule h p r it →
     P (ObservedWatch_init p r (first_read it))
       (EventEmitter_init (next_id o) (ObservedWatch_init p r (first_read it))
          (timeout o) (second_read it))) →
  registry_all P o →
  registry_all P (state_of (run_call c o)).
Proof.
  intros Hinv Hsub Hnew Hall w em.
  destruct c as [h p r it|w0| |].
  - rewrite run_call_schedule.
    destruct (schedule_iterable_registry h p r it o)
      as (_ & [(He & _)|(_ & He & _)]); rewrite He; [apply Hall|].
    destruct (decide (ObservedWatch_init p r (first_read it) = w)) as [<-|Hne].
    + rewrite lookup_insert_eq. intros [= <-]. by eapply Hnew.
    + rewrite lookup_insert_ne by done. apply Hall.
  - intros Hl. eapply Hall, (removal_adds_no_emitter (CallUnschedule w0)); done.
  - intros Hl. eapply Hall, (removal_adds_no_emitter CallUnscheduleAll); done.
  - intros Hl. eapply Hall, (removal_adds_no_emitter CallStart); done.
Qed.

Lemma second_read_rereadable it : rereadable it → second_read it = first_read it.
Proof. by destruct it as [[]|]. Qed.

Lemma second_read_iterator l : second_read (Some (Iterator l)) = Some [].
Proof. reflexivity. Qed.

(** The emitter that [schedule] builds. *)
Lemma new_emitter_filed id p r it tm :
  filed tm (ObservedWatch_init p r (first_read it))
    (EventEmitter_init id (ObservedWatch_init p r (first_read it)) tm (second_read it)) ∧
  (rereadable it →
   configured tm (ObservedWatch_init p r (first_read it))
     (EventEmitter_init id (ObservedWatch_init p r (first_read it)) tm (second_read it))).
Proof.
  split.
  - split; [done|]. split; [done|]. destruct it as [[l|l]|]; simpl.
    + by left.
    + right. split; [by eexists|done].
    + by left.
  - intros Hre. rewrite (second_read_rereadable it Hre). done.
Qed.

(** X12. In every state that the public operations reach from a new
    engine, whatever iterables [schedule] was given as [event_filter], each
    emitter of the Producer Registry is filed under the watch it observes and
    has the timeout of the engine; its filter is the filter of that watch, or
    it is empty although the watch has a filter.  When every [event_filter]
    given was [None] or a collection, which can be read again, the filter of
    the emitter is the filter of its watch. *)
Theorem producers_are_configured_from_their_watch cs cls tm w em :
  emitter_for_watch (run_calls cs (BaseObserver_init cls tm)) !! w = Some em →
  em_watch em = w ∧ em_timeout em = tm ∧
  (em_event_filter em = event_filter w ∨
   (is_Some (event_filter w) ∧ em_event_filter em = Some ∅)) ∧
  (Forall call_rereadable cs → em_event_filter em = event_filter w).
Proof.
  assert (∀ (P : ObservedWatch → EventEmitter → Prop) l o,
            (∀ id h p r it, CallSchedule h p r it ∈ l →
               P (ObservedWatch_init p r (first_read it))
                 (EventEmitter_init id (ObservedWatch_init p r (first_read it))
                    (timeout o) (second_read it))) →
            emitters_are_registry o → dom (emitter_for_watch o) ⊆ watches o →
            registry_all P o → registry_all P (run_calls l o)) as Hreach.
  { intros P. induction l as [|c l IH]; intros o Hnew Hinv Hsub Hall; [done|].
    simpl. destruct (run_call_keeps_registry c o Hinv Hsub) as (Hinv' & Hsub' & Ht).
    apply IH; [|done|done|].
    - intros id h p r it Hin. rewrite Ht. apply (Hnew id h). by apply list_elem_of_further.
    - apply run_call_keeps_all; [done..| |done].
      intros h p r it ->. apply (Hnew _ h). apply list_elem_of_here. }
  assert (emitters_are_registry (BaseObserver_init cls tm)) as Hinv
    by apply init_emitters_are_registry.
  assert (dom (emitter_for_watch (BaseObserver_init cls tm))
            ⊆ watches (BaseObserver_init cls tm)) as Hsub
    by (simpl; by rewrite dom_empty_L).
  assert (∀ P, registry_all P (BaseObserver_init cls tm)) as Hnone.
  { intros P w' em' Hl. simpl in Hl. by rewrite lookup_empty in Hl. }
  intros Hl.
  destruct (Hreach (filed tm) cs (BaseObserver_init cls tm)) with (w := w) (em := em)
    as (Hw & Htm & Hf); [|done..|].
  { intros id h p r it _. apply new_emitter_filed. }
  split; [done|]. split; [done|]. split; [done|].
  intros Hre.
  destruct (Hreach (configured tm) cs (BaseObserver_init cls tm)) with (w := w) (em := em)
    as (_ & _ & Hc); [|done..].
  intros id h p r it Hin. apply new_emitter_filed.
  rewrite Forall_forall in Hre. exact (Hre _ Hin).
Qed.

Lemma producers_are_configured_witness :
  let w := ObservedWatch_init (PStr "/tmp/b") true (Some ["FileMovedEvent"%string]) in
  let built_from_list := EventEmitter_init 0 w 1 (Some ["FileMovedEvent"%string]) in
  let built_from_iterator := EventEmitter_init 0 w 1 (Some []) in
  (em_watch built_from_list = w ∧ em_timeout built_from_list = 1%N ∧
   em_event_filter built_from_list = event_filter w) ∧
  (em_watch built_from_iterator = w ∧ em_timeout built_from_iterator = 1%N ∧
   (em_event_filter built_from_iterator = event_filter w ∨
    (is_Some (event_filter w) ∧ em_event_filter built_from_iterator = Some ∅))) ∧
  em_event_filter built_from_iterator ≠ event_filter w.
Proof.
  intros w built_from_list built_from_iterator.
  destruct (producers_are_configured_from_their_watch
              [CallSchedule 1 (PStr "/tmp/b") true
                 (Some (Collection ["FileMovedEvent"%string]));
               CallStart]
              starting 1 w built_from_list) as (Hw & Ht & _ & Hf); [decide_by_vm|].
  destruct (producers_are_configured_from_their_watch
              [CallSchedule 1 (PStr "/tmp/b") true
                 (Some (Iterator ["FileMovedEvent"%string]));
               CallStart]
              starting 1 w built_from_iterator) as (Hw' & Ht' & Hf' & _); [decide_by_vm|].
  split; [|split; [|decide_by_vm]].
  - split; [exact Hw|]. split; [exact Ht|]. apply Hf. by repeat constructor.
  - split; [exact Hw'|]. split; [exact Ht'|exact Hf'].
Defined.

(** ** From the Producer to the handler *)

Lemma queue_event_passes id w tm f ev q :
  passes f ev →
  queue_event (EventEmitter_init id w tm f) ev q = EventQueue.put (event_entry ev w) q.
Proof.
  unfold queue_event. destruct f as [l|]; simpl; [|done].
  intros (cls & Hin & Hm).
  replace (any_isinstance ev (list_to_set l)) with true; [done|].
  symmetry. apply any_isinstance_spec. exists cls. by rewrite elem_of_list_to_set.
Qed.

Lemma queue_event_fails id w tm f ev q :
  ¬ passes f ev → queue_event (EventEmitter_init id w tm f) ev q = q.
Proof.
  unfold queue_event. destruct f as [l|]; simpl; [|by intros []].
  intros Hno. destruct (any_isinstance ev (list_to_set l)) eqn:E; [|done].
  apply any_isinstance_spec in E as (cls & Hin & Hm). destruct Hno.
  exists cls. by rewrite elem_of_list_to_set in Hin.
Qed.

(** The first [schedule] on a new engine, which is idle: the observer it
    leaves. *)
Lemma schedule_iterable_new h p r it cls tm :
  let w := ObservedWatch_init p r (first_read it) in
  let em := EventEmitter_init 0 w tm (second_read it) in
  let o1 := state_of (schedule_iterable h p r it (BaseObserver_init cls tm)) in
  schedule_iterable h p r it (BaseObserver_init cls tm) = Ok w o1 ∧
  emitter_for_watch o1 !! w = Some em ∧
  handlers o1 !! w = Some {[h]} ∧
  event_queue o1 = EventQueue.new.
Proof.
  intros w em o1. unfold o1. rewrite schedule_iterable_run. simpl. fold w.
  rewrite lookup_empty. simpl. split; [done|]. rewrite lookup_insert_eq.
  split; [done|]. unfold add_handler. rewrite lookup_insert_eq, lookup_empty. simpl.
  split; [|done]. f_equal. set_solver.
Qed.

(** X13. From the Producer to the handler, for handlers that return and
    leave the registries and the queue alone.  On a new idle engine, after
    [schedule] of a handler with an [event_filter] that is [None] or a
    collection, what the Producer registered for the watch is given reaches
    the handler when it passes the filter (there is none, or the event is an
    instance of one of its classes): [queue_event] puts it on the queue and
    [dispatch_events] invokes exactly that handler and marks the entry done.
    An event that does not pass the filter leaves the queue empty, and
    [dispatch_events] waits.  After [schedule] with an iterator as
    [event_filter], which the constructor of the watch has exhausted when the
    Producer is built, the Producer discards every event, also one that is an
    instance of a class the iterator gave: the queue stays empty and
    [dispatch_events] waits. *)
Theorem scheduled_handler_receives_the_event dispatch cls tm h p r it ev :
  quiet dispatch →
  ∃ em,
    emitter_for_watch (state_of (schedule_iterable h p r it (BaseObserver_init cls tm)))
      !! ObservedWatch_init p r (first_read it) = Some em ∧
    (rereadable it → passes (first_read it) ev →
     ∃ o2,
       dispatch_events dispatch
         (set_event_queue
            (queue_event em ev
               (event_queue
                  (state_of (schedule_iterable h p r it (BaseObserver_init cls tm)))))
            (state_of (schedule_iterable h p r it (BaseObserver_init cls tm))))
         = Ok [h] o2 ∧
       EventQueue.items (event_queue o2) = [] ∧
       EventQueue.unfinished_tasks (event_queue o2) = 0) ∧
    (rereadable it → ¬ passes (first_read it) ev →
     dispatch_events dispatch
       (set_event_queue
          (queue_event em ev
             (event_queue
                (state_of (schedule_iterable h p r it (BaseObserver_init cls tm)))))
          (state_of (schedule_iterable h p r it (BaseObserver_init cls tm))))
       = Blocked
           (set_event_queue EventQueue.new
              (state_of (schedule_iterable h p r it (BaseObserver_init cls tm))))) ∧
    (¬ rereadable it →
     dispatch_events dispatch
       (set_event_queue
          (queue_event em ev
             (event_queue
                (state_of (schedule_iterable h p r it (BaseObserver_init cls tm)))))
          (state_of (schedule_iterable h p r it (BaseObserver_init cls tm))))
       = Blocked
           (set_event_queue EventQueue.new
              (state_of (schedule_iterable h p r it (BaseObserver_init cls tm))))).
Proof.
  intros Hq.
  destruct (schedule_iterable_new h p r it cls tm) as (_ & He & Hh & Hqueue).
  set (w := ObservedWatch_init p r (first_read it)) in *.
  set (o1 := state_of (schedule_iterable h p r it (BaseObserver_init cls tm))) in *.
  exists (EventEmitter_init 0 w tm (second_read it)). split; [exact He|].
  rewrite Hqueue. split; [|split].
  - intros Hre Hp. rewrite (second_read_rereadable it Hre).
    rewrite queue_event_passes by done.
    set (q1 := EventQueue.MkQueue [] (Some (event_entry ev w)) 0 1).
    rewrite (dispatch_events_entry dispatch ev w q1) by reflexivity.
    assert (handlers_get w (set_event_queue q1
              (set_event_queue (EventQueue.put (event_entry ev w) EventQueue.new) o1))
            = {[h]}) as Hget.
    { unfold handlers_get. simpl. by rewrite Hh. }
    rewrite Hget, elements_singleton.
    destruct (dispatch_loop_quiet dispatch ev w [h]
                (set_event_queue q1
                   (set_event_queue (EventQueue.put (event_entry ev w) EventQueue.new) o1))
                Hq) as (ol & -> & _ & Hql).
    { intros h' ->%list_elem_of_singleton. rewrite Hget. by apply elem_of_singleton. }
    rewrite Hql. simpl. eexists. split; [reflexivity|]. done.
  - intros Hre Hp. rewrite (second_read_rereadable it Hre).
    rewrite queue_event_fails by done. reflexivity.
  - intros Hno. destruct it as [[l|l]|]; [by destruct Hno| |by destruct Hno].
    rewrite second_read_iterator, empty_filter_discards. reflexivity.
Qed.

Lemma scheduled_handler_receives_witness :
  let from_list :=
    state_of (schedule_iterable 1 (PStr "/tmp/a") false
                (Some (Collection ["FileSystemEvent"%string]))
                (BaseObserver_init starting 1)) in
  let from_iterator :=
    state_of (schedule_iterable 1 (PStr "/tmp/a") false
                (Some (Iterator ["FileSystemEvent"%string]))
                (BaseObserver_init starting 1)) in
  let w := ObservedWatch_init (PStr "/tmp/a") false (Some ["FileSystemEvent"%string]) in
  passes (Some ["FileSystemEvent"%string]) modified_x ∧
  (∃ em o2,
     emitter_for_watch from_list !! w = Some em ∧
     dispatch_events no_dispatch
       (set_event_queue (queue_event em modified_x (event_queue from_list)) from_list)
       = Ok [1] o2 ∧
     EventQueue.items (event_queue o2) = [] ∧
     EventQueue.unfinished_tasks (event_queue o2) = 0) ∧
  (∃ em,
     emitter_for_watch from_iterator !! w = Some em ∧
     dispatch_events no_dispatch
       (set_event_queue (queue_event em modified_x (event_queue from_iterator))
          from_iterator)
       = Blocked (set_event_queue EventQueue.new from_iterator)).
Proof.
  intros from_list from_iterator w.
  assert (passes (Some ["FileSystemEvent"%string]) modified_x) as Hp.
  { exists "FileSystemEvent"%string. split; decide_by_vm. }
  split; [exact Hp|]. split.
  - destruct (scheduled_handler_receives_the_event no_dispatch starting 1 1
                (PStr "/tmp/a") false (Some (Collection ["FileSystemEvent"%string]))
                modified_x quiet_ret) as (em & Hem & Hpass & _).
    destruct (Hpass I Hp) as (o2 & Hd & Hi & Hu).
    exists em, o2. split; [exact Hem|]. split; [exact Hd|]. split; [exact Hi|exact Hu].
  - destruct (scheduled_handler_receives_the_event no_dispatch starting 1 1
                (PStr "/tmp/a") false (Some (Iterator ["FileSystemEvent"%string]))
                modified_x quiet_ret) as (em & Hem & _ & _ & Hit).
    exists em. split; [exact Hem|]. apply Hit. intros [].
Defined.

(** ** The platform predicates *)

Lemma prefixes_of_one_string p p' : ∀ s,
  String.prefix p s = true → String.prefix p' s = true →
  String.prefix p p' = true ∨ String.prefix p' p = true.
Proof.
  revert p'. induction p as [|a p IH]; intros p' s Hp Hp'.
  - left. by destruct p'.
  - destruct p' as [|a' p']; [by right|].
    destruct s as [|b s]; [done|]. simpl in Hp, Hp'.
    destruct (ascii_dec a b) as [->|]; [|done].
    destruct (ascii_dec a' b) as [->|]; [|done].
    simpl. destruct (ascii_dec b b); [|done]. by eapply IH.
Qed.

(** X14. Each platform predicate is decided by the prefixes of its own
    platform, whatever the order of the tests in [get_platform_name]:
    [is_windows] holds exactly for the names that start with ["win"],
    [is_darwin] for ["darwin"], [is_linux] for ["linux"], and [is_bsd] for the
    names that start with one of the five BSD prefixes.  The name computed is
    always one of the five platform constants, and it is the unknown one
    exactly when none of the four predicates holds. *)
Theorem platform_predicates_follow_their_prefixes s :
  (Platform.is_windows s = true ↔ Platform.startswith s "win" = true) ∧
  (Platform.is_darwin s = true ↔ Platform.startswith s "darwin" = true) ∧
  (Platform.is_linux s = true ↔ Platform.startswith s "linux" = true) ∧
  (Platform.is_bsd s = true ↔
   Platform.startswith_any s ["dragonfly"; "freebsd"; "netbsd"; "openbsd"; "bsd"]%string
     = true) ∧
  Platform.get_platform_name s ∈
    [Platform.PLATFORM_WINDOWS; Platform.PLATFORM_DARWIN; Platform.PLATFORM_LINUX;
     Platform.PLATFORM_BSD; Platform.PLATFORM_UNKNOWN] ∧
  (Platform.get_platform_name s = Platform.PLATFORM_UNKNOWN ↔
   Platform.is_windows s = false ∧ Platform.is_darwin s = false ∧
   Platform.is_linux s = false ∧ Platform.is_bsd s = false).
Proof.
  assert (∀ p p', String.prefix p p' = false → String.prefix p' p = false →
                  Platform.startswith s p = true → Platform.startswith s p' = true →
                  False) as Hdisj.
  { unfold Platform.startswith. intros p p' H1 H2 Hp Hp'.
    destruct (prefixes_of_one_string p p' s Hp Hp'); congruence. }
  unfold Platform.is_windows, Platform.is_darwin, Platform.is_linux, Platform.is_bsd,
    Platform.get_platform_name, Platform.startswith_any.
  rewrite !bool_decide_eq_true, !bool_decide_eq_false. simpl.
  destruct (Platform.startswith s "win") eqn:Hw;
  destruct (Platform.startswith s "darwin") eqn:Hd;
  destruct (Platform.startswith s "linux") eqn:Hl;
  destruct (Platform.startswith s "dragonfly") eqn:Hb1;
  destruct (Platform.startswith s "freebsd") eqn:Hb2;
  destruct (Platform.startswith s "netbsd") eqn:Hb3;
  destruct (Platform.startswith s "openbsd") eqn:Hb4;
  destruct (Platform.startswith s "bsd") eqn:Hb5;
  simpl;
  try (exfalso; first
    [ by apply (Hdisj "win" "darwin")%string | by apply (Hdisj "win" "linux")%string
    | by apply (Hdisj "win" "dragonfly")%string | by apply (Hdisj "win" "freebsd")%string
    | by apply (Hdisj "win" "netbsd")%string | by apply (Hdisj "win" "openbsd")%string
    | by apply (Hdisj "win" "bsd")%string
    | by apply (Hdisj "darwin" "linux")%string
    | by apply (Hdisj "darwin" "dragonfly")%string
    | by apply (Hdisj "darwin" "freebsd")%string
    | by apply (Hdisj "darwin" "netbsd")%string
    | by apply (Hdisj "darwin" "openbsd")%string | by apply (Hdisj "darwin" "bsd")%string
    | by apply (Hdisj "linux" "dragonfly")%string
    | by apply (Hdisj "linux" "freebsd")%string | by apply (Hdisj "linux" "netbsd")%string
    | by apply (Hdisj "linux" "openbsd")%string | by apply (Hdisj "linux" "bsd")%string ]);
  unfold Platform.PLATFORM_WINDOWS, Platform.PLATFORM_DARWIN, Platform.PLATFORM_LINUX,
    Platform.PLATFORM_BSD, Platform.PLATFORM_UNKNOWN;
  (repeat split; try done; try (intros; discriminate);
   try (repeat constructor);
   try (intros (? & ? & ? & ?); done)).
Qed.

(** Names of known systems. *)
Example platform_names :
  Platform.get_platform_name "win32" = "windows"%string ∧
  Platform.get_platform_name "cygwin" = "unknown"%string ∧
  Platform.get_platform_name "linux2" = "linux"%string ∧
  Platform.get_platform_name "dragonfly6" = "bsd"%string ∧
  Platform.get_platform_name "darwin" = "darwin"%string.
Proof. repeat split. Qed.
